(** * Batch image-to-GIF tool: the conversion pipeline of [gif_maker.py]

    A shallow embedding of [GIFMaker.create_gif_from_images] and of the
    command-line entry point [main], together with the properties of the
    pipeline: format filter, frame ordering, memory budget, frame
    normalisation, batch loop and encoder call.

    Conventions of the embedding.
    - A Python [str] is a Rocq [string]; its characters are read as the code
      points U+0000..U+00FF.  [str.lower], [str.isdigit] and [int] are given
      on that range as CPython defines them.
    - Python integers are [Z].  The binary64 arithmetic of the rescale step
      is [PrimFloat]; the memory budget, whose only float operations are
      scalings by powers of two, is computed in [Q].
    - The file system, the image decoder, the memory probe and the encoder
      are the fields of a [World]; every call on them is recorded in a trace
      of [Event]s.
    - Exceptions are values of [Exc]; the body of the [try] block is a
      computation in a small trace-and-error monad. *)

From Stdlib Require Import ZArith NArith Bool List Lia Ascii String.
From Stdlib Require Import QArith Qround Floats Uint63.
From Stdlib Require Import Sorted Permutation.
Import ListNotations.

Open Scope Z_scope.

(* ================================================================= *)
(** ** Python strings *)

Module PyStr.

Local Open Scope string_scope.

(** Code point of a character. *)
Definition ord (c : ascii) : N := N_of_ascii c.

Definition between (lo hi n : N) : bool := ((lo <=? n) && (n <=? hi))%N.

(** [str.lower] on one character: A-Z and the Latin-1 capitals
    U+00C0..U+00DE (the multiplication sign U+00D7 apart) move up by 32. *)
Definition lower_char (c : ascii) : ascii :=
  let n := ord c in
  if between 65 90 n || (between 192 222 n && negb (n =? 215)%N)
  then ascii_of_N (n + 32)
  else c.

Fixpoint lower (s : string) : string :=
  match s with
  | EmptyString => EmptyString
  | String c r => String (lower_char c) (lower r)
  end.

(** [s[n:]] for [0 <= n]. *)
Fixpoint drop (n : nat) (s : string) : string :=
  match n, s with
  | O, _ => s
  | S k, EmptyString => EmptyString
  | S k, String _ r => drop k r
  end.

(** [s.endswith(suffix)]. *)
Definition endswith (s suffix : string) : bool :=
  (length suffix <=? length s)%nat
  && (drop (length s - length suffix) s =? suffix).

(** [s.startswith(prefix)]. *)
Definition startswith (s prefix : string) : bool := String.prefix prefix s.

(** [c in s]. *)
Fixpoint contains (c : ascii) (s : string) : bool :=
  match s with
  | EmptyString => false
  | String d r => (d =? c)%char || contains c r
  end.

(** [s[s.rfind(c) + 1:]]: what follows the last occurrence of [c], the
    whole string when [c] does not occur. *)
Fixpoint after_last (c : ascii) (s : string) : string :=
  match s with
  | EmptyString => EmptyString
  | String d r =>
      if contains c r then after_last c r
      else if (d =? c)%char then r
      else s
  end.

(** [''.join(filter(p, s))]. *)
Fixpoint filter_chars (p : ascii -> bool) (s : string) : string :=
  match s with
  | EmptyString => EmptyString
  | String c r => if p c then String c (filter_chars p r) else filter_chars p r
  end.

(** [str.isdigit] on one character: the decimal digits and the superscript
    digits U+00B2, U+00B3, U+00B9. *)
Definition isdigit (c : ascii) : bool :=
  let n := ord c in
  between 48 57 n || (n =? 178)%N || (n =? 179)%N || (n =? 185)%N.

(** The value [int] gives a character: decimal digits only. *)
Definition decimal_value (c : ascii) : option Z :=
  let n := ord c in
  if between 48 57 n then Some (Z.of_N n - 48) else None.

Fixpoint int_digits (acc : Z) (s : string) : option Z :=
  match s with
  | EmptyString => Some acc
  | String c r =>
      match decimal_value c with
      | Some d => int_digits (10 * acc + d) r
      | None => None
      end
  end.

(** [int(s)] for a string of [isdigit] characters; [None] stands for
    [ValueError] (the empty string, or a digit that is not decimal). *)
Definition int_of_str (s : string) : option Z :=
  match s with
  | EmptyString => None
  | _ => int_digits 0 s
  end.

(** [posixpath.join(a, b)]. *)
Definition join (a b : string) : string :=
  if startswith b "/" then b
  else if (a =? "") || endswith a "/" then a ++ b
  else a ++ "/" ++ b.

(** [posixpath.basename(p)]. *)
Definition basename (p : string) : string := after_last "/" p.

(** The extension of a file name in the words of the specification: the
    last dot and what follows it, empty when the name has no dot. *)
Fixpoint extension (s : string) : string :=
  match s with
  | EmptyString => EmptyString
  | String c r =>
      if contains "." r then extension r
      else if (c =? ".")%char then s
      else EmptyString
  end.

End PyStr.

(* ================================================================= *)
(** ** Python numbers *)

Module PyNum.

(** [float(z)] for [|z| < 2^63]. *)
Definition float_of_Z (z : Z) : float :=
  if z <? 0 then PrimFloat.opp (PrimFloat.of_uint63 (Uint63.of_Z (- z)))
  else PrimFloat.of_uint63 (Uint63.of_Z z).

(** [a / b] on integers: [None] stands for [ZeroDivisionError]. *)
Definition truediv (a b : Z) : option float :=
  if b =? 0 then None
  else Some (PrimFloat.div (float_of_Z a) (float_of_Z b)).

(** [min(a, b)] on floats: [b] when [b < a], else [a]. *)
Definition fmin (a b : float) : float :=
  if PrimFloat.ltb b a then b else a.

(** [int(f)]: truncation towards zero; [None] stands for the error raised
    on an infinity or a NaN. *)
Definition int_of_float (f : float) : option Z :=
  match Prim2SF f with
  | S754_zero _ => Some 0
  | S754_finite s m e =>
      let a := match e with
               | Z0 => Zpos m
               | Zpos p => Zpos m * 2 ^ Zpos p
               | Zneg p => Zpos m / 2 ^ Zpos p
               end in
      Some (if s then - a else a)
  | S754_infinity _ => None
  | S754_nan => None
  end.

(** [int(q)] on an exact rational: truncation towards zero. *)
Definition int_of_Q (q : Q) : Z := Z.quot (Qnum q) (Zpos (Qden q)).

(** [l[:m]], with Python's reading of a negative bound. *)
Definition slice_to {A : Type} (m : Z) (l : list A) : list A :=
  if 0 <=? m then firstn (Z.to_nat m) l
  else firstn (Z.to_nat (Z.of_nat (List.length l) + m)) l.

End PyNum.

(* ================================================================= *)
(** ** [list.sort]: a stable sort *)

Section StableSort.

Context {A : Type}.
Variable le : A -> A -> bool.

(** [x] goes in front of the first element it does not exceed, so it
    stays ahead of the equal elements that followed it. *)
Fixpoint insert (x : A) (l : list A) : list A :=
  match l with
  | [] => [x]
  | y :: r => if le x y then x :: l else y :: insert x r
  end.

Fixpoint stable_sort (l : list A) : list A :=
  match l with
  | [] => []
  | x :: r => insert x (stable_sort r)
  end.

End StableSort.

(* ================================================================= *)
(** ** The environment of a run *)

Module Env.

Definition Size : Type := Z * Z.

(** What happens to one file between [Image.open] and [images.append]. *)
Inductive Loaded : Type :=
| Unreadable
    (** [Image.open] or the conversion to RGB raises *)
| Readable (size : Size) (finishes : bool).
    (** decoded as an RGB image of that size; [finishes] tells whether the
        later [resize] (when it runs) and the palette conversion succeed *)

Record World : Type := {
  available : Z;
    (** [psutil.virtual_memory().available] at the start of the run *)
  percent : nat -> Q;
    (** [psutil.virtual_memory().percent] sampled after that many files *)
  listdir : string -> option (list string);
    (** [os.listdir]; [None] when it raises *)
  open_image : string -> Loaded;
  can_save : string -> bool
    (** whether [Image.save] to that path succeeds *)
}.

(** An element of [images]: a palette image, with the file it came from. *)
Record Frame : Type := { source : string; dims : Size }.

(** The exceptions of the [try] block. *)
Inductive Exc : Type :=
| FolderNotFound      (** [OSError] of [os.listdir] *)
| NoSupportedFiles    (** [ValueError], line 64 *)
| InvalidLiteral      (** [ValueError] of [int], line 68 *)
| NoFramesProcessed   (** [ValueError], line 129 *)
| EncodeError.        (** whatever [Image.save] raises *)

Inductive Event : Type :=
| VirtualMemory
| ListDir (folder : string)
| Open (path : string)
| Skipped (path : string)
| GcCollect
| Save (path : string) (frames : list Frame) (duration loop : Z)
       (optimize : bool)
| Reported (e : Exc).

(** *** Computations that log events and may raise *)

Definition M (A : Type) : Type := list Event -> (Exc + A) * list Event.

Definition ret {A : Type} (a : A) : M A := fun t => (inr a, t).

Definition raise {A : Type} (e : Exc) : M A := fun t => (inl e, t).

Definition bind {A B : Type} (m : M A) (k : A -> M B) : M B :=
  fun t =>
    match m t with
    | (inl e, t') => (inl e, t')
    | (inr a, t') => k a t'
    end.

Definition emit (e : Event) : M unit := fun t => (inr tt, t ++ [e]).

Definition emits (es : list Event) : M unit := fun t => (inr tt, t ++ es).

End Env.

Declare Scope gif_scope.
Notation "x <- m ;; k" := (Env.bind m (fun x => k))
  (at level 61, m at next level, right associativity) : gif_scope.
Notation "m ;;; k" := (Env.bind m (fun _ => k))
  (at level 61, right associativity) : gif_scope.

(* ================================================================= *)
(** ** [class GIFMaker] *)

Module GifMaker.

Import PyStr PyNum Env.
Local Open Scope string_scope.
Local Open Scope gif_scope.

(** [self.supported_formats]. *)
Definition supported_formats : list string :=
  [".jpg"; ".jpeg"; ".png"; ".bmp"; ".tiff"; ".webp"].

(** [any(file.lower().endswith(fmt) for fmt in self.supported_formats)],
    lines 60 and 154. *)
Definition is_supported (file : string) : bool :=
  existsb (fun fmt => endswith (lower file) fmt) supported_formats.

(** Lines 49-51. *)
Definition calculated_max_frames (available_memory : Z) : Z :=
  let estimated_memory_per_frame := 2 * 1024 * 1024 in
  let safe_memory_limit := (inject_Z available_memory * (1 # 2))%Q in
  int_of_Q (safe_memory_limit / inject_Z estimated_memory_per_frame)%Q.

(** Lines 47-52: the value of [max_frames] after the budget step. *)
Definition effective_max_frames (available_memory : Z) (max_frames : option Z)
  : Z :=
  match max_frames with
  | None => Z.min (calculated_max_frames available_memory) 10000
  | Some m => m
  end.

(** The sort key of line 68; [None] when [int] raises. *)
Definition sort_key (x : string) : option Z :=
  let digits := filter_chars isdigit (basename x) in
  if digits =? "" then Some 0 else int_of_str digits.

(** The keys of all the files, computed before any comparison. *)
Fixpoint sort_keys (l : list string) : option (list Z) :=
  match l with
  | [] => Some []
  | x :: r =>
      match sort_key x, sort_keys r with
      | Some k, Some ks => Some (k :: ks)
      | _, _ => None
      end
  end.

Definition key_le (a b : Z * string) : bool := (fst a <=? fst b)%Z.

(** Lines 67-70. *)
Definition sort_files (sort_numerically : bool) (image_files : list string)
  : M (list string) :=
  if sort_numerically then
    match sort_keys image_files with
    | None => raise InvalidLiteral
    | Some ks => ret (map snd (stable_sort key_le (combine ks image_files)))
    end
  else ret (stable_sort String.leb image_files).

(** Lines 72-75. *)
Definition truncate (max_frames : Z) (image_files : list string)
  : list string :=
  if (max_frames <? Z.of_nat (List.length image_files))%Z
  then slice_to max_frames image_files
  else image_files.

Definition max_dimension : Z := 1920.

(** Lines 100-102: the base size derived from the first decoded image;
    [None] when the arithmetic raises. *)
Definition fit (max_dimension : Z) (size : Size) : option Size :=
  let '(w, h) := size in
  if ((max_dimension <? w) || (max_dimension <? h))%Z then
    match truediv max_dimension w, truediv max_dimension h with
    | Some rw, Some rh =>
        let ratio := fmin rw rh in
        match int_of_float (PrimFloat.mul (float_of_Z w) ratio),
              int_of_float (PrimFloat.mul (float_of_Z h) ratio) with
        | Some w', Some h' => Some (w', h')
        | _, _ => None
        end
    | _, _ => None
    end
  else Some size.

(** Lines 96-108 for a decoded image: the new [base_size], and the size of
    the palette image, [None] when an exception interrupts the steps. *)
Definition normalize (base_size : option Size) (size : Size) (finishes : bool)
  : option Size * option Size :=
  match base_size with
  | None =>
      match fit max_dimension size with
      | None => (Some size, None)
      | Some b => (Some b, if finishes then Some size else None)
      end
  | Some b => (Some b, if finishes then Some b else None)
  end.

Definition batch_size : nat := 100.

(** The variables of the loop of lines 87-126, and what it logged. *)
Record Loop : Type := {
  images : list Frame;
  base_size : option Size;
  total_processed : nat;
  events : list Event
}.

Definition log (es : list Event) (st : Loop) : Loop :=
  {| images := images st; base_size := base_size st;
     total_processed := total_processed st;
     events := (events st ++ es)%list |}.

Definition set_base (b : option Size) (st : Loop) : Loop :=
  {| images := images st; base_size := b;
     total_processed := total_processed st; events := events st |}.

Definition append (f : Frame) (st : Loop) : Loop :=
  {| images := (images st ++ [f])%list; base_size := base_size st;
     total_processed := S (total_processed st); events := events st |}.

(** The loop, from index [i] on. *)
Fixpoint process (w : World) (i : nat) (files : list string) (st : Loop)
  : Loop :=
  match files with
  | [] => st
  | img_path :: rest =>
      let st := log [Open img_path] st in
      match open_image w img_path with
      | Unreadable => process w (S i) rest (log [Skipped img_path] st)
      | Readable size finishes =>
          let '(b, out) := normalize (base_size st) size finishes in
          let st := set_base b st in
          match out with
          | None => process w (S i) rest (log [Skipped img_path] st)
          | Some d =>
              let st := append {| source := img_path; dims := d |} st in
              if (Nat.modulo (S i) batch_size =? 0)%nat then
                let st := log [GcCollect; VirtualMemory] st in
                if negb (Qle_bool (percent w (S i)) (inject_Z 80)) then
                  if (0 <? List.length (images st))%nat then st
                  else process w (S i) rest st
                else process w (S i) rest st
              else process w (S i) rest st
          end
      end
  end.

Definition initial : Loop :=
  {| images := []; base_size := None; total_processed := 0; events := [] |}.

(** [images[0].save(output_path, save_all=True, append_images=images[1:],
    ...)], lines 132-139. *)
Definition save (w : World) (output_path : string) (first : Frame)
    (append_images : list Frame) (duration loop : Z) (optimize : bool)
  : M unit :=
  if can_save w output_path then
    emit (Save output_path (first :: append_images) duration loop optimize)
  else raise EncodeError.

(** Lines 58-64: the supported files of the folder, as paths. *)
Definition discover (w : World) (image_folder : string) : M (list string) :=
  emit (ListDir image_folder) ;;;
  match listdir w image_folder with
  | None => raise FolderNotFound
  | Some names =>
      match map (join image_folder) (filter is_supported names) with
      | [] => raise NoSupportedFiles
      | image_files => ret image_files
      end
  end.

(** Lines 58-75: the list the loop iterates over. *)
Definition file_list (w : World) (image_folder : string)
    (sort_numerically : bool) (max_frames : Z) : M (list string) :=
  image_files <- discover w image_folder ;;
  image_files <- sort_files sort_numerically image_files ;;
  ret (truncate max_frames image_files).

(** The body of the [try] block, lines 39-143. *)
Definition try_block (w : World) (image_folder output_path : string)
    (duration loop : Z) (optimize : bool) (quality : Z)
    (sort_numerically : bool) (max_frames : option Z) : M unit :=
  emit VirtualMemory ;;;
  let max_frames := effective_max_frames (available w) max_frames in
  image_files <- file_list w image_folder sort_numerically max_frames ;;
  let st := process w 0 image_files initial in
  emits (events st) ;;;
  match images st with
  | [] => raise NoFramesProcessed
  | first :: append_images =>
      save w output_path first append_images duration loop optimize
  end.

(** [create_gif_from_images]: the value returned, and the trace. *)
Definition create_gif_from_images (w : World)
    (image_folder output_path : string) (duration loop : Z)
    (optimize : bool) (quality : Z) (sort_numerically : bool)
    (max_frames : option Z) : bool * list Event :=
  match try_block w image_folder output_path duration loop optimize quality
          sort_numerically max_frames [] with
  | (inr _, t) => (true, t)
  | (inl e, t) => (false, (t ++ [Reported e])%list)
  end.

End GifMaker.

(* ================================================================= *)
(** ** The command line *)

Module Cli.

Import Env.

(** The namespace [parser.parse_args()] returns. *)
Record Args : Type := {
  folder : string;
  output : string;
  duration : Z;
  loop : Z;
  max : option Z;
  no_optimize : bool;
  no_sort : bool;
  max_size : option Z
}.

(** Lines 344-350: the defaults of the options. *)
Definition defaults (folder : string) : Args :=
  {| folder := folder; output := "output.gif"; duration := 500; loop := 0;
     max := None; no_optimize := false; no_sort := false;
     max_size := None |}.

(** Lines 354-364 of [main], once the arguments are parsed: the exit status
    passed to [sys.exit], and the trace of the conversion. *)
Definition main (w : World) (args : Args) : Z * list Event :=
  let '(success, t) :=
    GifMaker.create_gif_from_images w (folder args) (output args)
      (duration args) (loop args) (negb (no_optimize args)) 85
      (negb (no_sort args)) None in
  (if success then 0 else 1, t).

End Cli.

(* ================================================================= *)
(** ** Vocabulary of the properties *)

Module Vocabulary.

Import Env GifMaker.

(** [l1] is [l2] with some elements removed, the others in place. *)
Inductive Subseq {A : Type} : list A -> list A -> Prop :=
| Subseq_nil (l : list A) : Subseq [] l
| Subseq_skip (x : A) (l1 l2 : list A) : Subseq l1 l2 -> Subseq l1 (x :: l2)
| Subseq_keep (x : A) (l1 l2 : list A) :
    Subseq l1 l2 -> Subseq (x :: l1) (x :: l2).

(** Whether the loop body, entered with that [base_size], reaches
    [images.append] for the file: no exception on lines 89-108. *)
Definition accepted (w : World) (base : option Size) (path : string) : bool :=
  match open_image w path with
  | Unreadable => false
  | Readable size finishes =>
      match snd (normalize base size finishes) with
      | Some _ => true
      | None => false
      end
  end.

Definition is_open (e : Event) : bool :=
  match e with Open _ => true | _ => false end.

Definition is_skipped (e : Event) : bool :=
  match e with Skipped _ => true | _ => false end.

Definition is_gc (e : Event) : bool :=
  match e with GcCollect => true | _ => false end.

Definition is_save (e : Event) : bool :=
  match e with Save _ _ _ _ _ => true | _ => false end.

Definition is_listdir (e : Event) : bool :=
  match e with ListDir _ => true | _ => false end.

(** The events the loop logs. *)
Definition loop_event (e : Event) : bool :=
  match e with
  | Open _ | Skipped _ | GcCollect | VirtualMemory => true
  | _ => false
  end.

Definition count (p : Event -> bool) (es : list Event) : nat :=
  List.length (filter p es).

(** The frames handed to the encoder, if any. *)
Fixpoint saved (t : list Event) : list Frame :=
  match t with
  | [] => []
  | Save _ frames _ _ _ :: _ => frames
  | _ :: r => saved r
  end.

(** The error the handler of line 145 reported, if any. *)
Fixpoint reported (t : list Event) : option Exc :=
  match t with
  | [] => None
  | Reported e :: _ => Some e
  | _ :: r => reported r
  end.

(** The list the loop receives, or the exception raised before it. *)
Definition ordered_files (w : World) (image_folder : string)
    (sort_numerically : bool) (max_frames : Z) : Exc + list string :=
  fst (file_list w image_folder sort_numerically max_frames []).

(** The result of a run, by cases on how far it gets. *)
Definition outcome (w : World) (image_folder output_path : string)
    (duration loop : Z) (optimize sort_numerically : bool)
    (max_frames : option Z) : bool * list Event :=
  let head := [VirtualMemory; ListDir image_folder] in
  match ordered_files w image_folder sort_numerically
          (effective_max_frames (available w) max_frames) with
  | inl e => (false, head ++ [Reported e])
  | inr files =>
      let st := process w 0 files initial in
      match images st with
      | [] => (false, head ++ events st ++ [Reported NoFramesProcessed])
      | _ :: _ =>
          if can_save w output_path
          then (true, head ++ events st
                        ++ [Save output_path (images st) duration loop
                              optimize])
          else (false, head ++ events st ++ [Reported EncodeError])
      end
  end.

(** The sort key of a path whose digits are all decimal. *)
Definition key_of (x : string) : Z :=
  match sort_key x with
  | Some k => k
  | None => 0
  end.

End Vocabulary.

(* ================================================================= *)
(** ** Concrete folders *)

Module Scenarios.

Import Env.
Local Open Scope string_scope.

Definition GiB : Z := 1024 * 1024 * 1024.

Definition digit (k : nat) : ascii := ascii_of_nat (48 + Nat.modulo k 10).

(** ["f001.png"], ["f002.png"], ... *)
Definition numbered (k : nat) : string :=
  "f" ++ String (digit (Nat.div k 100))
           (String (digit (Nat.div k 10)) (String (digit k) ".png")).

Definition only (folder : string) (names : list string)
  : string -> option (list string) :=
  fun d => if d =? folder then Some names else None.

(** Two images, the first one 3840 x 2160. *)
Definition large_first : World :=
  {| available := 8 * GiB;
     percent := fun _ => 50 # 1;
     listdir := only "pics" ["1.png"; "2.png"];
     open_image := fun p =>
       if p =? "pics/1.png" then Readable (3840, 2160) true
       else Readable (800, 600) true;
     can_save := fun _ => true |}.

(** Ten valid images of 800 x 600. *)
Definition ten_images : World :=
  {| available := 8 * GiB;
     percent := fun _ => 50 # 1;
     listdir := only "pics" (map numbered (seq 1 10));
     open_image := fun _ => Readable (800, 600) true;
     can_save := fun _ => true |}.

(** [gif_maker.py pics -m 2 --max-size 100]. *)
Definition capped_args : Cli.Args :=
  {| Cli.folder := "pics"; Cli.output := "output.gif"; Cli.duration := 500;
     Cli.loop := 0; Cli.max := Some 2; Cli.no_optimize := false;
     Cli.no_sort := false; Cli.max_size := Some 100 |}.

(** One valid image, one mebibyte of memory available. *)
Definition low_memory : World :=
  {| available := 1024 * 1024;
     percent := fun _ => 50 # 1;
     listdir := only "pics" ["a.png"];
     open_image := fun _ => Readable (800, 600) true;
     can_save := fun _ => true |}.

(** A file name with a superscript two (U+00B2): ["a" + chr(178) + ".png"]. *)
Definition squared : string := String "a" (String (ascii_of_nat 178) ".png").

Definition superscript_name : World :=
  {| available := 8 * GiB;
     percent := fun _ => 50 # 1;
     listdir := only "pics" ["1.png"; squared];
     open_image := fun _ => Readable (800, 600) true;
     can_save := fun _ => true |}.

(** 101 images, the hundredth one corrupt, memory 95% used. *)
Definition corrupt_hundredth : World :=
  {| available := 8 * GiB;
     percent := fun _ => 95 # 1;
     listdir := only "pics" (map numbered (seq 1 101));
     open_image := fun p =>
       if p =? "pics/f100.png" then Unreadable else Readable (800, 600) true;
     can_save := fun _ => true |}.

(** The same folder with the hundredth image valid. *)
Definition busy_memory : World :=
  {| available := 8 * GiB;
     percent := fun _ => 95 # 1;
     listdir := only "pics" (map numbered (seq 1 101));
     open_image := fun _ => Readable (800, 600) true;
     can_save := fun _ => true |}.

(** Five files, none of them decodable. *)
Definition all_corrupt : World :=
  {| available := 8 * GiB;
     percent := fun _ => 50 # 1;
     listdir := only "pics" (map numbered (seq 1 5));
     open_image := fun _ => Unreadable;
     can_save := fun _ => true |}.

(** Three valid images, the second one corrupt; the output is not
    writable at ["/ro/out.gif"]. *)
Definition mixed : World :=
  {| available := 8 * GiB;
     percent := fun _ => 50 # 1;
     listdir := only "pics" ["b10.png"; "a2.JPG"; "notes.txt"; "c1.webp"];
     open_image := fun p =>
       if p =? "pics/b10.png" then Unreadable else Readable (640, 480) true;
     can_save := fun p => negb (p =? "/ro/out.gif") |}.

End Scenarios.

(* ================================================================= *)
(** ** Further vocabulary *)

Module Observations.

Import Env GifMaker Vocabulary.

(** The order the numeric sort compares paths in. *)
Definition by_key (a b : string) : bool := key_of a <=? key_of b.

(** The paths passed to [Image.open], in order. *)
Fixpoint opened (t : list Event) : list string :=
  match t with
  | [] => []
  | Open p :: r => p :: opened r
  | _ :: r => opened r
  end.

(** The same world with another memory probe. *)
Definition with_percent (w : World) (q : nat -> Q) : World :=
  {| available := available w; percent := q; listdir := listdir w;
     open_image := open_image w; can_save := can_save w |}.

(** What the loop keeps true of [base_size] and [images]: no frame before
    a base size; every frame after the first has the base size; the first
    one has it too, or is the image the base size was derived from. *)
Definition sized (st : Loop) : Prop :=
  match base_size st with
  | None => images st = []
  | Some b =>
      Forall (fun f => dims f = b) (tl (images st))
      /\ forall f, hd_error (images st) = Some f ->
                   dims f = b \/ fit max_dimension (dims f) = Some b
  end.

(** What one run of the loop adds to its state. *)
Inductive Grows (files : list string) (st st' : Loop) : Prop :=
| Grows_intro (new : list Frame) (es : list Event) :
    images st' = images st ++ new ->
    total_processed st' = (total_processed st + List.length new)%nat ->
    events st' = events st ++ es ->
    Subseq (map source new) files ->
    count is_open es = (count is_skipped es + List.length new)%nat ->
    forallb loop_event es = true ->
    Grows files st st'.

(** Whether a base size is set. *)
Definition based (st : Loop) : bool :=
  match base_size st with
  | Some _ => true
  | None => false
  end.

(** A list of files with the failed ones removed: the files [Image.open]
    or the RGB conversion raises on, the files the resize or the palette
    conversion raises on, and the image the base size is derived from when
    that derivation raises.  [based] tells whether a base size is set
    before the first file of the list. *)
Fixpoint without_failed (w : World) (based : bool) (files : list string)
  : list string :=
  match files with
  | [] => []
  | p :: r =>
      match open_image w p with
      | Unreadable => without_failed w based r
      | Readable size finishes =>
          let fitted := match fit max_dimension size with
                        | Some _ => true
                        | None => false
                        end in
          if finishes && (based || fitted)
          then p :: without_failed w true r
          else without_failed w true r
      end
  end.

End Observations.

(* ================================================================= *)
(** ** [GIFMaker.get_image_info] *)

Module Info.

Import PyStr Env GifMaker.
Local Open Scope string_scope.

(** [s.lstrip('.')]. *)
Fixpoint lstrip_dots (s : string) : string :=
  match s with
  | String c r => if (c =? ".")%char then lstrip_dots r else s
  | EmptyString => EmptyString
  end.

(** [os.path.splitext(p)[1]]: the last dot of the base name and what
    follows it, unless only dots precede that dot. *)
Definition splitext_ext (p : string) : string :=
  extension (lstrip_dots (basename p)).

(** [list(set(l))], in the order of first occurrence; Python fixes no
    order, and no property below depends on one. *)
Fixpoint distinct (l : list string) : list string :=
  match l with
  | [] => []
  | x :: r => if existsb (String.eqb x) r then distinct r else x :: distinct r
  end.

(** The dictionary [get_image_info] returns. *)
Record ImageInfo : Type := {
  count : nat;
  files : list string;
  formats : list string
}.

(** Lines 151-164; [None] is the [None] returned by the handler. *)
Definition get_image_info (w : World) (image_folder : string)
  : option ImageInfo * list Event :=
  match listdir w image_folder with
  | None => (None, [ListDir image_folder; Reported FolderNotFound])
  | Some names =>
      let image_files := filter is_supported names in
      (Some {| count := List.length image_files;
               files := stable_sort String.leb image_files;
               formats :=
                 distinct (map (fun f => lower (splitext_ext f))
                             image_files) |},
       [ListDir image_folder])
  end.

End Info.

(* ================================================================= *)
(** ** [config.py] *)

Module Config.

Local Open Scope string_scope.

(** The values the settings hold. *)
Inductive Value : Type :=
| VStr (s : string)
| VInt (n : Z)
| VBool (b : bool)
| VSet (l : list string).

(** A dictionary with string keys, in insertion order. *)
Definition Settings : Type := list (string * Value).

Definition DEFAULT_SETTINGS : Settings :=
  [ ("output_filename", VStr "animation.gif");
    ("default_output_dir", VStr "./output");
    ("default_duration", VInt 500);
    ("default_loop", VInt 0);
    ("max_frames", VInt 2000);
    ("optimize_gif", VBool true);
    ("image_quality", VInt 85);
    ("max_width", VInt 1920);
    ("max_height", VInt 1080);
    ("sort_numerically", VBool true);
    ("case_sensitive_sort", VBool false);
    ("supported_formats",
     VSet [".jpg"; ".jpeg"; ".png"; ".bmp"; ".tiff"; ".webp"]);
    ("gui_theme", VStr "default");
    ("window_size", VStr "600x500");
    ("show_preview", VBool true);
    ("resize_large_images", VBool true);
    ("resize_method", VStr "LANCZOS");
    ("color_palette", VInt 256);
    ("log_level", VStr "INFO");
    ("save_log", VBool false);
    ("log_file", VStr "gif_maker.log") ].

Definition ADVANCED_SETTINGS : Settings :=
  [ ("max_memory_usage", VStr "1GB");
    ("batch_size", VInt 50);
    ("use_multithreading", VBool true);
    ("max_workers", VInt 4);
    ("skip_corrupted", VBool true);
    ("backup_originals", VBool false);
    ("compress_output", VBool true);
    ("compression_level", VInt 6) ].

(** [d.get(key)]. *)
Fixpoint lookup (key : string) (d : Settings) : option Value :=
  match d with
  | [] => None
  | (k, v) :: r => if k =? key then Some v else lookup key r
  end.

(** [d[key] = value] for a key the dictionary holds. *)
Fixpoint store (key : string) (value : Value) (d : Settings) : Settings :=
  match d with
  | [] => []
  | (k, v) :: r =>
      if k =? key then (k, value) :: r else (k, v) :: store key value r
  end.

(** [get_setting(key, default)] on the current [DEFAULT_SETTINGS]; the
    [default] and the result are [None] for Python's [None]. *)
Definition get_setting (settings : Settings) (key : string)
    (default : option Value) : option Value :=
  match lookup key settings with
  | Some v => Some v
  | None => default
  end.

(** [update_setting(key, value)]: the boolean returned and the new
    [DEFAULT_SETTINGS]. *)
Definition update_setting (settings : Settings) (key : string)
    (value : Value) : bool * Settings :=
  match lookup key settings with
  | Some _ => (true, store key value settings)
  | None => (false, settings)
  end.

End Config.

(* ================================================================= *)
(** ** [create_test_images.py] *)

Module TestImages.

Import PyStr.
Local Open Scope string_scope.

(** The decimal digits of [n], least significant first, for [n] below
    [10 ^ fuel]. *)
Fixpoint digits_rev (fuel n : nat) : list ascii :=
  match fuel with
  | O => []
  | S k =>
      ascii_of_nat (48 + Nat.modulo n 10)
      :: (if Nat.div n 10 =? 0 then [] else digits_rev k (Nat.div n 10))%nat
  end.

(** [str(n)] for a natural number. *)
Definition str (n : nat) : string :=
  string_of_list_ascii (rev (digits_rev (S n) n)).

(** ["0" * k]. *)
Fixpoint zeros (k : nat) : string :=
  match k with
  | O => EmptyString
  | S j => String "0" (zeros j)
  end.

(** [f"{n:03d}"]. *)
Definition pad3 (n : nat) : string :=
  let s := str n in zeros (3 - length s) ++ s.

(** Line 57: the name of image [i]. *)
Definition filename (i : nat) : string := "frame_" ++ pad3 (i + 1) ++ ".jpg".

(** Lines 17-21. *)
Definition colors : list (Z * Z * Z) :=
  [ (255, 100, 100); (100, 255, 100); (100, 100, 255);
    (255, 255, 100); (255, 100, 255); (100, 255, 255);
    (255, 200, 100); (200, 100, 255); (100, 200, 255) ]%Z.

(** Line 25: the background of image [i]. *)
Definition background (i : nat) : Z * Z * Z :=
  nth (Nat.modulo i (List.length colors)) colors (0, 0, 0)%Z.

(** The files [create_test_images(output_folder, count)] saves, in order,
    each with its background colour; the text and the random lines drawn
    on the images are left out. *)
Definition create_test_images (output_folder : string) (count : nat)
  : list (string * (Z * Z * Z)) :=
  map (fun i => (join output_folder (filename i), background i))
    (seq 0 count).

End TestImages.

(* ================================================================= *)
(** ** Vocabulary for digits and settings *)

Module Reading.

Import PyStr Config.

(** The value of a list of decimal digits, least significant first. *)
Fixpoint value (ds : list ascii) : Z :=
  match ds with
  | [] => 0
  | d :: r => (Z.of_N (ord d) - 48) + 10 * value r
  end.

(** The superscript digits: [isdigit] holds of them, [int] rejects them. *)
Definition superscript (c : ascii) : bool :=
  isdigit c && negb (between 48 57 (ord c)).

(** The dictionaries [DEFAULT_SETTINGS] can become through calls of
    [update_setting]. *)
Inductive reachable : Settings -> Prop :=
| reachable_start : reachable DEFAULT_SETTINGS
| reachable_update (settings : Settings) (key : string) (value : Value) :
    reachable settings ->
    reachable (snd (update_setting settings key value)).

End Reading.

(* ================================================================= *)
(** ** Further concrete inputs *)

Module Samples.

Import Env Scenarios.
Local Open Scope string_scope.

(** Paths with a tie between keys: two names whose digits read 2. *)
Definition tied_paths : list string :=
  ["pics/b10.png"; "pics/a2.JPG"; "pics/c1.webp"; "pics/x02.png"].

(** The first 99 files of [busy_memory], sorted. *)
Definition first_99 : list string :=
  map (fun k => "pics/" ++ numbered k) (seq 1 99).

(** What [get_image_info] returns for the folder of [mixed]. *)
Definition mixed_info : Info.ImageInfo :=
  {| Info.count := 3;
     Info.files := ["a2.JPG"; "b10.png"; "c1.webp"];
     Info.formats := [".png"; ".jpg"; ".webp"] |}.

End Samples.

(* ================================================================= *)
(** ** Facts about strings *)

Section StringFacts.

Import PyStr.
Local Open Scope string_scope.

Lemma str_app_empty_r (s : string) : s ++ "" = s.
Proof. induction s as [|c s IH]; simpl; [reflexivity | now rewrite IH]. Qed.

Lemma str_app_assoc (a b c : string) : (a ++ b) ++ c = a ++ (b ++ c).
Proof. induction a as [|x a IH]; simpl; [reflexivity | now rewrite IH]. Qed.

Lemma str_length_app (a b : string) :
  length (a ++ b) = (length a + length b)%nat.
Proof. induction a as [|x a IH]; simpl; [reflexivity | now rewrite IH]. Qed.

Lemma drop_app (p s : string) : drop (length p) (p ++ s) = s.
Proof. induction p as [|c p IH]; simpl; [reflexivity | exact IH]. Qed.

Lemma drop_split (n : nat) (s : string) : exists p, s = p ++ drop n s.
Proof.
  revert s; induction n as [|n IH]; intros s.
  - now exists "".
  - destruct s as [|c s]; [now exists "" |].
    destruct (IH s) as [p Hp]. exists (String c p). simpl. now rewrite <- Hp.
Qed.

Lemma endswith_spec (s suffix : string) :
  endswith s suffix = true <-> exists p, s = p ++ suffix.
Proof.
  unfold endswith. rewrite andb_true_iff, Nat.leb_le, String.eqb_eq. split.
  - intros [_ H]. destruct (drop_split (length s - length suffix) s) as [p Hp].
    exists p. now rewrite H in Hp.
  - intros [p ->]. rewrite str_length_app. split; [lia |].
    replace (length p + length suffix - length suffix)%nat with (length p)
      by lia.
    apply drop_app.
Qed.

Lemma lower_app (a b : string) : lower (a ++ b) = lower a ++ lower b.
Proof. induction a as [|x a IH]; simpl; [reflexivity | now rewrite IH]. Qed.

Lemma lower_char_dot (c : ascii) :
  (lower_char c =? ".")%char = (c =? ".")%char.
Proof. destruct c as [[] [] [] [] [] [] [] []]; reflexivity. Qed.

Lemma contains_lower_dot (s : string) :
  contains "." (lower s) = contains "." s.
Proof.
  induction s as [|c s IH]; simpl; [reflexivity |].
  now rewrite lower_char_dot, IH.
Qed.

Lemma extension_lower (s : string) : extension (lower s) = lower (extension s).
Proof.
  induction s as [|c s IH]; simpl; [reflexivity |].
  rewrite contains_lower_dot, lower_char_dot.
  destruct (contains "." s); [exact IH |].
  destruct (c =? ".")%char; reflexivity.
Qed.

Lemma contains_app_r (c : ascii) (p s : string) :
  contains c s = true -> contains c (p ++ s) = true.
Proof.
  intros H. induction p as [|x p IH]; simpl; [exact H |].
  rewrite IH. apply orb_true_r.
Qed.

Lemma extension_app (p t : string) :
  contains "." t = false ->
  extension (p ++ String "." t) = String "." t.
Proof.
  intros Ht. induction p as [|x p IH]; simpl.
  - now rewrite Ht.
  - rewrite contains_app_r; [exact IH |]. simpl. reflexivity.
Qed.

Lemma extension_suffix (s : string) : exists p, s = p ++ extension s.
Proof.
  induction s as [|c s [p Hp]]; [now exists "" |]. simpl.
  destruct (contains "." s).
  - exists (String c p). simpl. now rewrite <- Hp.
  - destruct (c =? ".")%char.
    + now exists "".
    + exists (String c s). simpl. now rewrite str_app_empty_r.
Qed.

End StringFacts.

(* ================================================================= *)
(** ** Format filter *)

Section FormatFilter.

Import PyStr GifMaker.
Local Open Scope string_scope.

(** Every supported format is a dot followed by letters. *)
Lemma supported_format_shape (fmt : string) :
  In fmt supported_formats ->
  exists t, fmt = String "." t /\ contains "." t = false.
Proof.
  unfold supported_formats; simpl.
  intros H; repeat (destruct H as [<- | H]; [eexists; split; reflexivity |]).
  destruct H.
Qed.

(** C7: the format filter accepts a file name exactly when its extension,
    lower-cased, is one of the six supported formats.  The filter is a
    function of the file name alone: it reads no [World] and logs no
    [Event]. *)
Theorem is_supported_iff_extension (file : string) :
  is_supported file = true <-> In (lower (extension file)) supported_formats.
Proof.
  unfold is_supported. rewrite existsb_exists. split.
  - intros (fmt & Hin & Hend).
    apply endswith_spec in Hend as [p Hp].
    destruct (supported_format_shape fmt Hin) as (t & -> & Ht).
    rewrite <- extension_lower, Hp, extension_app by exact Ht.
    exact Hin.
  - intros Hin. exists (lower (extension file)). split; [exact Hin |].
    apply endswith_spec.
    destruct (extension_suffix file) as [p Hp].
    exists (lower p). rewrite <- lower_app. now rewrite <- Hp.
Qed.

End FormatFilter.

(* ================================================================= *)
(** ** The loop *)

Section LoopFacts.

Import Env GifMaker Vocabulary Observations.

Variable w : World.

Lemma count_app (p : Event -> bool) (a b : list Event) :
  count p (a ++ b) = (count p a + count p b)%nat.
Proof. unfold count. now rewrite filter_app, length_app. Qed.

Lemma Subseq_app_keep {A : Type} (x : A) (l1 l2 : list A) :
  Subseq l1 l2 -> Subseq (x :: l1) (x :: l2).
Proof. apply Subseq_keep. Qed.

Lemma Grows_refl (files : list string) (st : Loop) : Grows files st st.
Proof.
  apply (Grows_intro files st st [] []);
    rewrite ?app_nil_r, ?Nat.add_0_r; auto; constructor.
Qed.

(** The loop went through [p] (logging [pre], keeping [kept]) and then
    through the rest. *)
Lemma Grows_step (p : string) (rest : list string) (st mid st' : Loop)
    (kept : list Frame) (pre : list Event) :
  images mid = images st ++ kept ->
  total_processed mid = (total_processed st + List.length kept)%nat ->
  events mid = events st ++ pre ->
  Subseq (map source kept) [p] ->
  count is_open pre = (count is_skipped pre + List.length kept)%nat ->
  forallb loop_event pre = true ->
  Grows rest mid st' ->
  Grows (p :: rest) st st'.
Proof.
  intros Hi Ht He Hs Hc Hq [new es Hi' Ht' He' Hs' Hc' Hq'].
  apply (Grows_intro _ _ _ (kept ++ new) (pre ++ es)).
  - now rewrite Hi', Hi, app_assoc.
  - rewrite Ht', Ht, length_app. lia.
  - now rewrite He', He, app_assoc.
  - rewrite map_app. inversion Hs as [l Hl | x l1 l2 Hsub | x l1 l2 Hsub]; subst.
    + destruct kept; [| discriminate]. simpl. now apply Subseq_skip.
    + inversion Hsub; subst. destruct kept; [|discriminate]. simpl. now apply Subseq_skip.
    + inversion Hsub; subst. destruct kept as [|k [|]]; try discriminate. simpl in *. injection H as ->. now apply Subseq_keep.
  - rewrite !count_app, length_app. lia.
  - rewrite forallb_app, Hq, Hq'. reflexivity.
Qed.

Ltac grows_one p kept pre IH :=
  eapply (Grows_step p _ _ _ _ kept pre); [| | | | | | apply IH]; simpl;
  rewrite ?app_nil_r, ?Nat.add_0_r, <- ?app_assoc; auto;
  try solve [repeat constructor | lia].

Lemma process_grows (files : list string) :
  forall (i : nat) (st : Loop), Grows files st (process w i files st).
Proof.
  induction files as [|p rest IH]; intros i st; cbn [process log base_size].
  - apply Grows_refl.
  - destruct (open_image w p) as [|size finishes].
    + grows_one p (@nil Frame) [Open p; Skipped p] IH.
    + destruct (normalize (base_size st) size finishes) as [b [d|]].
      * set (f := {| source := p; dims := d |}).
        destruct (Nat.modulo (S i) batch_size =? 0)%nat.
        -- destruct (negb (Qle_bool (percent w (S i)) (inject_Z 80))).
           ++ simpl.
              destruct (0 <? List.length (images st ++ [f]))%nat.
              ** grows_one p [f] [Open p; GcCollect; VirtualMemory] Grows_refl.
              ** grows_one p [f] [Open p; GcCollect; VirtualMemory] IH.
           ++ grows_one p [f] [Open p; GcCollect; VirtualMemory] IH.
        -- grows_one p [f] [Open p] IH.
      * grows_one p (@nil Frame) [Open p; Skipped p] IH.
Qed.

(** A file that fails is logged and skipped; the loop goes on with the
    next index and the same frames. *)
Lemma process_skips (i : nat) (p : string) (rest : list string) (st : Loop) :
  accepted w (base_size st) p = false ->
  exists st1,
    process w i (p :: rest) st = process w (S i) rest st1
    /\ images st1 = images st
    /\ total_processed st1 = total_processed st
    /\ events st1 = events st ++ [Open p; Skipped p].
Proof.
  unfold accepted. cbn [process log base_size].
  destruct (open_image w p) as [|size finishes].
  - intros _. eexists; split; [reflexivity |]. simpl.
    now rewrite <- app_assoc.
  - destruct (normalize (base_size st) size finishes) as [b [d|]];
      [discriminate |].
    intros _. eexists; split; [reflexivity |]. simpl.
    now rewrite <- app_assoc.
Qed.

End LoopFacts.

(* ================================================================= *)
(** ** A run, by cases *)

Section RunFacts.

Import Env GifMaker Vocabulary.

Variable w : World.

Lemma file_list_trace (image_folder : string) (sort_numerically : bool)
    (max_frames : Z) (t : list Event) :
  file_list w image_folder sort_numerically max_frames t
  = (ordered_files w image_folder sort_numerically max_frames,
     t ++ [ListDir image_folder]).
Proof.
  unfold ordered_files, file_list, discover, sort_files, bind, emit, raise,
    ret.
  destruct (listdir w image_folder) as [names|]; [| reflexivity].
  destruct (map _ (filter is_supported names)) as [|f fs]; [reflexivity |].
  destruct sort_numerically; [| reflexivity].
  destruct (sort_keys (f :: fs)); reflexivity.
Qed.

Lemma run_outcome (image_folder output_path : string) (duration loop : Z)
    (optimize : bool) (quality : Z) (sort_numerically : bool)
    (max_frames : option Z) :
  create_gif_from_images w image_folder output_path duration loop optimize
    quality sort_numerically max_frames
  = outcome w image_folder output_path duration loop optimize sort_numerically
      max_frames.
Proof.
  unfold create_gif_from_images, try_block, outcome.
  unfold bind at 1. unfold emit at 1. cbn [app].
  unfold bind at 1. rewrite file_list_trace.
  destruct (ordered_files _ _ _ _) as [e|files]; [reflexivity |].
  cbn [app]. unfold bind, emits.
  destruct (images (process w 0 files initial)) as [|first rest];
    [unfold raise; now rewrite <- app_assoc |].
  unfold save, emit, raise.
  destruct (can_save w output_path); now rewrite <- !app_assoc.
Qed.

End RunFacts.

(* ================================================================= *)
(** ** Traces and the frame buffer *)

Section TraceFacts.

Import Env GifMaker Vocabulary.

Lemma loop_events_not_counted (p : Event -> bool) (es : list Event) :
  (forall e, loop_event e = true -> p e = false) ->
  forallb loop_event es = true -> count p es = 0%nat.
Proof.
  intros Hp. unfold count. induction es as [|e es IH]; simpl; [reflexivity |].
  rewrite andb_true_iff. intros [He Hes].
  rewrite (Hp e He). auto.
Qed.

Lemma loop_events_no_save (es : list Event) :
  forallb loop_event es = true -> count is_save es = 0%nat.
Proof. apply loop_events_not_counted. now intros []. Qed.

Lemma reported_after_loop (es rest : list Event) :
  forallb loop_event es = true -> reported (es ++ rest) = reported rest.
Proof.
  induction es as [|e es IH]; simpl; [reflexivity |].
  rewrite andb_true_iff. intros [He Hes].
  destruct e; try discriminate; auto.
Qed.

Lemma saved_after_loop (es rest : list Event) :
  forallb loop_event es = true -> saved (es ++ rest) = saved rest.
Proof.
  induction es as [|e es IH]; simpl; [reflexivity |].
  rewrite andb_true_iff. intros [He Hes].
  destruct e; try discriminate; auto.
Qed.

Variable w : World.

(** The loop run from its initial state. *)
Lemma process_initial (files : list string) :
  let st := process w 0 files initial in
  Subseq (map source (images st)) files
  /\ total_processed st = List.length (images st)
  /\ count is_open (events st)
     = (count is_skipped (events st) + total_processed st)%nat
  /\ forallb loop_event (events st) = true.
Proof.
  destruct (process_grows w files 0 initial) as [new es Hi Ht He Hs Hc Hq].
  simpl in Hi, Ht, He. cbv zeta. rewrite Hi, Ht, He. auto.
Qed.

End TraceFacts.

Section Claims.

Import Env GifMaker Vocabulary.

(** C5: a file that fails to decode or to be processed is logged and
    skipped, and the loop goes on with the next file.  When the run reaches
    the loop, it reports [NoFramesProcessed] exactly when the counter of
    successfully processed files is zero at the end of the loop, that is
    when every file that was opened was skipped; the run then fails and
    writes no output. *)
Theorem failed_files_skipped_and_no_frames_iff_none_processed
    (w : World) (image_folder output_path : string) (duration loop : Z)
    (optimize : bool) (quality : Z) (sort_numerically : bool)
    (max_frames : option Z) (files : list string) :
  ordered_files w image_folder sort_numerically
    (effective_max_frames (available w) max_frames) = inr files ->
  let st := process w 0 files initial in
  let run := create_gif_from_images w image_folder output_path duration loop
               optimize quality sort_numerically max_frames in
  (forall i p rest st0,
      accepted w (base_size st0) p = false ->
      exists st1,
        process w i (p :: rest) st0 = process w (S i) rest st1
        /\ images st1 = images st0
        /\ total_processed st1 = total_processed st0
        /\ events st1 = events st0 ++ [Open p; Skipped p])
  /\ total_processed st = List.length (images st)
  /\ count is_open (events st)
     = (count is_skipped (events st) + total_processed st)%nat
  /\ (reported (snd run) = Some NoFramesProcessed
      <-> total_processed st = 0%nat)
  /\ (total_processed st = 0%nat
      -> fst run = false /\ count is_save (snd run) = 0%nat).
Proof.
  intros Hfiles st run.
  destruct (process_initial w files) as (_ & Htot & Hcount & Hloop).
  fold st in Htot, Hcount, Hloop.
  assert (Hrun : run = outcome w image_folder output_path duration loop
                         optimize sort_numerically max_frames)
    by apply run_outcome.
  unfold outcome in Hrun. rewrite Hfiles in Hrun. fold st in Hrun.
  split; [intros i p rest st0; apply process_skips |].
  split; [exact Htot |]. split; [exact Hcount |].
  rewrite Htot. rewrite Hrun.
  destruct (images st) as [|first more].
  - cbn [fst snd]. split.
    + cbn [app reported]. rewrite reported_after_loop by exact Hloop.
      simpl. tauto.
    + intros _. split; [reflexivity |].
      rewrite !count_app, (loop_events_no_save _ Hloop). reflexivity.
  - split; [| discriminate].
    destruct (can_save w output_path); simpl;
      rewrite reported_after_loop by exact Hloop; simpl;
      split; discriminate.
Qed.

End Claims.

(* ================================================================= *)
(** ** Memory budget and entry points *)

Section Budget.

Import PyNum Env GifMaker Vocabulary.

Lemma calculated_max_frames_div (a : Z) :
  0 <= a -> calculated_max_frames a = a / 4194304.
Proof.
  intros Ha. unfold calculated_max_frames, int_of_Q. cbn.
  rewrite !Z.mul_1_r. apply Z.quot_div_nonneg; lia.
Qed.

Lemma budget_floor (a : Z) :
  Qfloor (inject_Z a * (1 # 2) / inject_Z (2 * 1024 * 1024)) = a / 4194304.
Proof. unfold Qfloor. cbn. now rewrite !Z.mul_1_r. Qed.

Lemma truncate_zero (l : list string) : truncate 0 l = [].
Proof.
  unfold truncate, slice_to. destruct l as [|x l]; reflexivity.
Qed.

Lemma ordered_files_zero (w : World) (image_folder : string)
    (sort_numerically : bool) (files : list string) :
  ordered_files w image_folder sort_numerically 0 = inr files -> files = [].
Proof.
  unfold ordered_files, file_list, discover, sort_files, bind, emit, raise,
    ret.
  destruct (listdir w image_folder) as [names|]; [| discriminate].
  destruct (map _ (filter is_supported names)) as [|f fs]; [discriminate |].
  destruct sort_numerically.
  - destruct (sort_keys (f :: fs)); [| discriminate].
    cbn [fst]. rewrite truncate_zero. congruence.
  - cbn [fst]. rewrite truncate_zero. congruence.
Qed.

(** The exceptions raised before the loop. *)
Lemma ordered_files_raises (w : World) (image_folder : string)
    (sort_numerically : bool) (max_frames : Z) (e : Exc) :
  ordered_files w image_folder sort_numerically max_frames = inl e ->
  e = FolderNotFound \/ e = NoSupportedFiles \/ e = InvalidLiteral.
Proof.
  unfold ordered_files, file_list, discover, sort_files, bind, emit, raise,
    ret.
  destruct (listdir w image_folder) as [names|];
    [| intros [= <-]; now left].
  destruct (map _ (filter is_supported names)) as [|f fs];
    [intros [= <-]; right; now left |].
  destruct sort_numerically; [| discriminate].
  destruct (sort_keys (f :: fs)); [discriminate |].
  intros [= <-]. right. now right.
Qed.

(** C3 (amended): without a caller-supplied cap the effective maximum frame
    count is min(floor((available * 0.5) / (2 * 1024 * 1024)), 10000), which
    is never negative.  No check rejects a zero cap: the folder is listed
    all the same, no image is opened, nothing is written, and the run
    returns failure through one of the ordinary errors: the folder cannot
    be listed, holds no supported file, has a file whose sort key cannot be
    computed, or, these apart, no frame was processed. *)
Theorem budget_formula_and_zero_cap
    (w : World) (image_folder output_path : string) (duration loop : Z)
    (optimize : bool) (quality : Z) (sort_numerically : bool) :
  0 <= available w ->
  let cap := effective_max_frames (available w) None in
  let run := create_gif_from_images w image_folder output_path duration loop
               optimize quality sort_numerically None in
  cap = Z.min (Qfloor (inject_Z (available w) * (1 # 2)
                       / inject_Z (2 * 1024 * 1024))) 10000
  /\ 0 <= cap
  /\ (cap = 0 ->
      fst run = false
      /\ In (ListDir image_folder) (snd run)
      /\ count is_open (snd run) = 0%nat
      /\ count is_save (snd run) = 0%nat
      /\ exists e,
           snd run = [VirtualMemory; ListDir image_folder; Reported e]
           /\ (e = FolderNotFound \/ e = NoSupportedFiles
               \/ e = InvalidLiteral \/ e = NoFramesProcessed)
           /\ (e = NoFramesProcessed
               <-> exists files,
                     ordered_files w image_folder sort_numerically 0
                     = inr files)).
Proof.
  intros Ha cap run.
  assert (Hcap : cap = Z.min (available w / 4194304) 10000).
  { unfold cap, effective_max_frames.
    now rewrite calculated_max_frames_div. }
  split; [now rewrite budget_floor |].
  split.
  { rewrite Hcap. apply Z.min_glb; [apply Z.div_pos |]; lia. }
  intros Hzero.
  assert (Hrun : run = outcome w image_folder output_path duration loop
                         optimize sort_numerically None)
    by apply run_outcome.
  unfold outcome in Hrun. fold cap in Hrun. rewrite Hzero in Hrun.
  destruct (ordered_files w image_folder sort_numerically 0)
    as [e|files] eqn:Hfiles.
  - rewrite Hrun. cbn. repeat split; auto.
    exists e. split; [reflexivity |].
    destruct (ordered_files_raises _ _ _ _ _ Hfiles) as [-> | [-> | ->]];
      (split; [tauto |]);
      (split; [discriminate | intros (files & Hf); discriminate Hf]).
  - pose proof Hfiles as Hnil. apply ordered_files_zero in Hnil.
    subst files. rewrite Hrun. cbn. repeat split; auto.
    exists NoFramesProcessed. split; [reflexivity |]. split; [tauto |].
    split; [intros _; now exists [] | reflexivity].
Qed.

End Budget.

Section EntryPoints.

Import Env GifMaker Vocabulary Cli.

(** C9: [main] exits with status 0 when the conversion returned [True] and
    with status 1 when it returned [False].  [create_gif_from_images]
    returns a boolean whatever happens in the [try] block: [True] when the
    block runs to its end, [False], after reporting the exception, when the
    block raises; in particular it returns [False] for a folder that cannot
    be listed and for an output path that cannot be written. *)
Theorem exit_status_and_boolean_result
    (w : World) (args : Args) (image_folder output_path : string)
    (duration loop : Z) (optimize : bool) (quality : Z)
    (sort_numerically : bool) (max_frames : option Z) :
  let success :=
    fst (create_gif_from_images w (folder args) (output args)
           (Cli.duration args) (Cli.loop args) (negb (no_optimize args)) 85
           (negb (no_sort args)) None) in
  let run := create_gif_from_images w image_folder output_path duration loop
               optimize quality sort_numerically max_frames in
  (fst (main w args) = 0 <-> success = true)
  /\ (fst (main w args) = 1 <-> success = false)
  /\ match try_block w image_folder output_path duration loop optimize
             quality sort_numerically max_frames [] with
     | (inr _, t) => run = (true, t)
     | (inl e, t) => run = (false, t ++ [Reported e])
     end
  /\ (listdir w image_folder = None -> fst run = false)
  /\ (can_save w output_path = false -> fst run = false).
Proof.
  intros success run. unfold main. fold success.
  split; [| split; [| split; [| split]]].
  - destruct (create_gif_from_images w (folder args) _ _ _ _ _ _ _)
      as [[] t]; simpl in *; subst success; simpl; split; congruence.
  - destruct (create_gif_from_images w (folder args) _ _ _ _ _ _ _)
      as [[] t]; simpl in *; subst success; simpl; split; congruence.
  - unfold run, create_gif_from_images.
    destruct (try_block _ _ _ _ _ _ _ _ _ _) as [[e|u] t]; reflexivity.
  - intros Hdir. unfold run. rewrite run_outcome. unfold outcome.
    replace (ordered_files w image_folder sort_numerically _)
      with (@inl Exc (list string) FolderNotFound); [reflexivity |].
    unfold ordered_files, file_list, discover, bind, emit, raise.
    now rewrite Hdir.
  - intros Hsave. unfold run. rewrite run_outcome. unfold outcome.
    destruct (ordered_files _ _ _ _); [reflexivity |].
    destruct (images _); [reflexivity |]. now rewrite Hsave.
Qed.

(** C10: the result of [create_gif_from_images], that is the boolean, the
    files opened and skipped, and the frames written with their order and
    sizes, is the same for any two values of [quality]. *)
Theorem quality_is_ignored
    (w : World) (image_folder output_path : string) (duration loop : Z)
    (optimize : bool) (quality1 quality2 : Z) (sort_numerically : bool)
    (max_frames : option Z) :
  create_gif_from_images w image_folder output_path duration loop optimize
    quality1 sort_numerically max_frames
  = create_gif_from_images w image_folder output_path duration loop optimize
      quality2 sort_numerically max_frames.
Proof. reflexivity. Qed.

End EntryPoints.

(* ================================================================= *)
(** ** The pipeline on concrete folders *)

Section Evaluations.

Import PyStr PyNum Env GifMaker Vocabulary Cli Scenarios.
Local Open Scope string_scope.

(** C1: in a folder whose first image is 3840 x 2160 the base size becomes
    1920 x 1080 and the second frame is resized to it, but the first frame
    reaches the encoder with its native 3840 x 2160.  Besides, the
    truncation of line 102 can leave the larger axis at 1919: an image of
    2148 x 1200 gives the base size 1919 x 1072. *)
Theorem first_frame_keeps_native_size :
  let run := create_gif_from_images large_first "pics" "out.gif" 500 0 true
               85 true None in
  fst run = true
  /\ base_size (process large_first 0 ["pics/1.png"; "pics/2.png"] initial)
     = Some (1920, 1080)
  /\ saved (snd run)
     = [ {| source := "pics/1.png"; dims := (3840, 2160) |};
         {| source := "pics/2.png"; dims := (1920, 1080) |} ]
  /\ fit max_dimension (2148, 1200) = Some (1919, 1072).
Proof. vm_compute. repeat split. Qed.

(** C2: [main] passes neither [args.max] nor [args.max_size] on.  With
    [-m 2 --max-size 100] and ten images of 800 x 600 the run encodes all
    ten frames at 800 x 600; and the result of [main] is the same whatever
    the two options hold. *)
Theorem cli_drops_max_and_max_size :
  let run := main ten_images capped_args in
  Cli.max capped_args = Some 2
  /\ max_size capped_args = Some 100
  /\ fst run = 0
  /\ map dims (saved (snd run)) = repeat (800, 600) 10
  /\ forall (w : World) (args : Args) (m s : option Z),
       main w {| folder := folder args; output := output args;
                 duration := duration args; loop := loop args; max := m;
                 no_optimize := no_optimize args; no_sort := no_sort args;
                 max_size := s |}
       = main w args.
Proof.
  cbv zeta.
  split; [reflexivity |]. split; [reflexivity |].
  split; [vm_compute; reflexivity |].
  split; [vm_compute; reflexivity |].
  intros w args m s. reflexivity.
Qed.

(** C3, as stated, fails: with one mebibyte available the computed cap is
    zero, yet the folder is listed and the run ends on the empty frame
    buffer, not on a configuration error raised before any file access. *)
Lemma zero_cap_still_lists_folder :
  effective_max_frames (available low_memory) None = 0
  /\ create_gif_from_images low_memory "pics" "out.gif" 500 0 true 85 true
       None
     = (false, [VirtualMemory; ListDir "pics"; Reported NoFramesProcessed]).
Proof. vm_compute. split; reflexivity. Qed.

(** C4: a file name holding a superscript two passes [str.isdigit] but is
    no literal for [int]: the key function raises, the sort with it, and
    the run returns [False] before any image is opened. *)
Theorem numeric_sort_raises_on_superscript_digit :
  isdigit (ascii_of_nat 178) = true
  /\ sort_key (join "pics" squared) = None
  /\ create_gif_from_images superscript_name "pics" "out.gif" 500 0 true 85
       true None
     = (false, [VirtualMemory; ListDir "pics"; Reported InvalidLiteral]).
Proof. vm_compute. repeat split. Qed.

(** C8: with 101 files of which the hundredth is corrupt and memory at
    95%, the exception handler skips the checkpoint of lines 113-122: no
    collection, no memory sample, and the loop opens file 101.  With the
    hundredth file valid the checkpoint runs once and the loop stops after
    100 files, the run still succeeding. *)
Theorem checkpoint_missed_when_hundredth_file_fails :
  let run := create_gif_from_images corrupt_hundredth "pics" "out.gif" 500 0
               true 85 true None in
  let run' := create_gif_from_images busy_memory "pics" "out.gif" 500 0
                true 85 true None in
  (fst run = true
   /\ count is_gc (snd run) = 0%nat
   /\ count is_open (snd run) = 101%nat
   /\ List.length (saved (snd run)) = 100%nat)
  /\ (fst run' = true
      /\ count is_gc (snd run') = 1%nat
      /\ count is_open (snd run') = 100%nat
      /\ List.length (saved (snd run')) = 100%nat).
Proof. vm_compute. repeat split. Qed.

End Evaluations.

Section Witnesses.

Import PyStr PyNum Env GifMaker Vocabulary Cli Scenarios.
Local Open Scope string_scope.

Lemma all_corrupt_reports_no_frames :
  let run := create_gif_from_images all_corrupt "pics" "out.gif" 500 0 true
               85 true None in
  ordered_files all_corrupt "pics" true
    (effective_max_frames (available all_corrupt) None)
  = inr (map (fun k => "pics/" ++ numbered k) (seq 1 5))
  /\ reported (snd run) = Some NoFramesProcessed
  /\ fst run = false
  /\ count is_save (snd run) = 0%nat.
Proof.
  assert (H : ordered_files all_corrupt "pics" true
                (effective_max_frames (available all_corrupt) None)
              = inr (map (fun k => "pics/" ++ numbered k) (seq 1 5)))
    by (vm_compute; reflexivity).
  split; [exact H |].
  destruct (failed_files_skipped_and_no_frames_iff_none_processed
              all_corrupt "pics" "out.gif" 500 0 true 85 true None _ H)
    as (_ & _ & _ & Hiff & Hzero).
  assert (Hz : total_processed
                 (process all_corrupt 0
                    (map (fun k => "pics/" ++ numbered k) (seq 1 5)) initial)
               = 0%nat) by (vm_compute; reflexivity).
  split; [apply Hiff, Hz |]. apply Hzero, Hz.
Defined.

Lemma low_memory_run_fails :
  0 <= available low_memory
  /\ effective_max_frames (available low_memory) None = 0
  /\ fst (create_gif_from_images low_memory "pics" "out.gif" 500 0 true 85
            true None) = false.
Proof.
  assert (Ha : 0 <= available low_memory) by (intros H; discriminate H).
  assert (Hc : effective_max_frames (available low_memory) None = 0)
    by (vm_compute; reflexivity).
  split; [exact Ha |]. split; [exact Hc |].
  pose proof (budget_formula_and_zero_cap low_memory "pics" "out.gif" 500 0
                true 85 true Ha) as H.
  cbv zeta in H. destruct H as (_ & _ & Hzero).
  destruct (Hzero Hc) as (Hfalse & _). exact Hfalse.
Defined.

Lemma mixed_unwritable_output_returns_false :
  listdir mixed "nowhere" = None
  /\ can_save mixed "/ro/out.gif" = false
  /\ fst (create_gif_from_images mixed "nowhere" "out.gif" 500 0 true 85
            true None) = false
  /\ fst (create_gif_from_images mixed "pics" "/ro/out.gif" 500 0 true 85
            true None) = false.
Proof.
  assert (Hd : listdir mixed "nowhere" = None) by reflexivity.
  assert (Hs : can_save mixed "/ro/out.gif" = false) by reflexivity.
  split; [exact Hd |]. split; [exact Hs |]. split.
  - destruct (exit_status_and_boolean_result mixed (defaults "pics")
                "nowhere" "out.gif" 500 0 true 85 true None)
      as (_ & _ & _ & Hdir & _).
    apply Hdir, Hd.
  - destruct (exit_status_and_boolean_result mixed (defaults "pics")
                "pics" "/ro/out.gif" 500 0 true 85 true None)
      as (_ & _ & _ & _ & Hsave).
    apply Hsave, Hs.
Defined.

End Witnesses.

(* ================================================================= *)
(** ** Frame ordering *)

Section SortFacts.

Context {A : Type}.
Variable le : A -> A -> bool.

Lemma insert_permutation (x : A) (l : list A) :
  Permutation (insert le x l) (x :: l).
Proof.
  induction l as [|y l IH]; simpl; [reflexivity |].
  destruct (le x y); [reflexivity |].
  rewrite IH. apply perm_swap.
Qed.

Lemma stable_sort_permutation (l : list A) : Permutation (stable_sort le l) l.
Proof.
  induction l as [|x l IH]; simpl; [reflexivity |].
  rewrite insert_permutation. now constructor.
Qed.

Hypothesis le_total : forall x y, le x y = false -> le y x = true.

Lemma insert_sorted (x : A) (l : list A) :
  Sorted (fun a b => le a b = true) l ->
  Sorted (fun a b => le a b = true) (insert le x l).
Proof.
  induction 1 as [|y l Hs IH Hd]; simpl.
  - repeat constructor.
  - destruct (le x y) eqn:Hxy.
    + constructor; [now constructor | now constructor].
    + constructor; [exact IH |].
      destruct Hd as [|z l Hyz]; simpl.
      * constructor. now apply le_total.
      * destruct (le x z); constructor; [now apply le_total | exact Hyz].
Qed.

Lemma stable_sort_sorted (l : list A) :
  Sorted (fun a b => le a b = true) (stable_sort le l).
Proof.
  induction l as [|x l IH]; simpl; [constructor | now apply insert_sorted].
Qed.

(** A class of elements that [insert] never carries an element of the
    class across: its members keep their order. *)
Lemma insert_filter (p : A -> bool) (x : A) (l : list A) :
  (forall y, p x = true -> le x y = false -> p y = false) ->
  filter p (insert le x l) = filter p (x :: l).
Proof.
  intros Hp. induction l as [|y l IH]; simpl; [reflexivity |].
  destruct (le x y) eqn:Hxy; [reflexivity |].
  simpl in *. rewrite IH.
  destruct (p x) eqn:Hx; [| reflexivity].
  now rewrite (Hp y eq_refl Hxy).
Qed.

Lemma stable_sort_filter (p : A -> bool) (l : list A) :
  (forall x y, p x = true -> le x y = false -> p y = false) ->
  filter p (stable_sort le l) = filter p l.
Proof.
  intros Hp. induction l as [|x l IH]; simpl; [reflexivity |].
  rewrite insert_filter by (apply Hp). simpl. now rewrite IH.
Qed.

End SortFacts.

Section NumericOrder.

Import PyStr GifMaker Vocabulary Env Observations.



Lemma sort_keys_some (files : list string) (ks : list Z) :
  sort_keys files = Some ks ->
  combine ks files = map (fun f => (key_of f, f)) files.
Proof.
  revert ks. induction files as [|f files IH]; intros ks; simpl.
  - intros [= <-]. reflexivity.
  - unfold key_of. destruct (sort_key f) as [k|]; [| discriminate].
    destruct (sort_keys files) as [ks'|]; [| discriminate].
    intros [= <-]. simpl. now rewrite (IH ks' eq_refl).
Qed.

Lemma insert_tagged (x : string) (l : list string) :
  insert key_le (key_of x, x) (map (fun f => (key_of f, f)) l)
  = map (fun f => (key_of f, f)) (insert by_key x l).
Proof.
  induction l as [|y l IH]; simpl; [reflexivity |].
  unfold key_le at 1, by_key at 1. simpl.
  destruct (key_of x <=? key_of y); simpl; [reflexivity | now rewrite IH].
Qed.

Lemma sort_tagged (l : list string) :
  map snd (stable_sort key_le (map (fun f => (key_of f, f)) l))
  = stable_sort by_key l.
Proof.
  assert (H : stable_sort key_le (map (fun f => (key_of f, f)) l)
              = map (fun f => (key_of f, f)) (stable_sort by_key l)).
  { induction l as [|x l IH]; simpl; [reflexivity |].
    now rewrite IH, insert_tagged. }
  rewrite H, map_map. simpl. apply map_id.
Qed.

Lemma sort_keys_none (files : list string) :
  sort_keys files = None <-> exists f, In f files /\ sort_key f = None.
Proof.
  induction files as [|f files IH]; simpl.
  - split; [discriminate | intros (f & [] & _)].
  - destruct (sort_key f) as [k|] eqn:Hk.
    + destruct (sort_keys files) as [ks|].
      * split; [discriminate |].
        intros (g & [<- | Hin] & Hg); [congruence |].
        enough (Some ks = None) by discriminate.
        apply IH. now exists g.
      * split; [| reflexivity]. intros _.
        destruct (proj1 IH eq_refl) as (g & Hin & Hg). exists g. auto.
    + split; [| reflexivity]. intros _. exists f. auto.
Qed.

Lemma by_key_sorted (l : list string) :
  StronglySorted (fun a b => key_of a <= key_of b) (stable_sort by_key l).
Proof.
  apply Sorted_StronglySorted; [intros a b c; lia |].
  assert (H : Sorted (fun a b => by_key a b = true) (stable_sort by_key l)).
  { apply stable_sort_sorted. unfold by_key. intros x y Hxy. lia. }
  induction H as [|a r _ IH Hd]; constructor; [exact IH |].
  destruct Hd as [|b r Hab]; constructor. unfold by_key in Hab. lia.
Qed.

(** The numeric sort when every key can be computed. *)
Lemma sort_files_numeric (files : list string) (t : list Event) :
  (forall f, In f files -> sort_key f <> None) ->
  sort_files true files t = (inr (stable_sort by_key files), t).
Proof.
  intros Hall. unfold sort_files.
  destruct (sort_keys files) as [ks|] eqn:Hks.
  - now rewrite (sort_keys_some _ _ Hks), sort_tagged.
  - apply sort_keys_none in Hks as (f & Hin & Hf). now destruct (Hall f).
Qed.

(** X1: when the key of every path can be computed, the numeric sort
    returns a permutation of the paths in ascending key order, and paths
    with equal keys keep the order they had in the input. *)
Theorem numeric_sort_is_stable_ascending
    (files : list string) (t : list Event) :
  (forall f, In f files -> sort_key f <> None) ->
  exists sorted,
    sort_files true files t = (inr sorted, t)
    /\ Permutation sorted files
    /\ StronglySorted (fun a b => key_of a <= key_of b) sorted
    /\ forall k, filter (fun f => key_of f =? k) sorted
                 = filter (fun f => key_of f =? k) files.
Proof.
  intros Hall. exists (stable_sort by_key files).
  split; [now apply sort_files_numeric |].
  split; [apply stable_sort_permutation |].
  split; [apply by_key_sorted |].
  intros k. apply stable_sort_filter. unfold by_key. intros x y Hx Hxy. lia.
Qed.

End NumericOrder.

(* ================================================================= *)
(** ** Paths and the plain sort *)

Section PathFacts.

Import PyStr.
Local Open Scope string_scope.

Lemma after_last_none (c : ascii) (s : string) :
  contains c s = false -> after_last c s = s.
Proof.
  destruct s as [|d r]; simpl; [reflexivity |].
  rewrite orb_false_iff. intros [Hd Hr]. now rewrite Hr, Hd.
Qed.

Lemma after_last_app (c : ascii) (p s : string) :
  contains c s = false -> after_last c (p ++ String c s) = s.
Proof.
  intros Hs. induction p as [|d p IH]; simpl.
  - now rewrite Hs, Ascii.eqb_refl.
  - rewrite contains_app_r; [exact IH |]. simpl.
    now rewrite Ascii.eqb_refl.
Qed.

Lemma prefix_slash (s : string) :
  contains "/" s = false -> String.prefix "/" s = false.
Proof.
  destruct s as [|d r]; [reflexivity |].
  cbn [contains]. rewrite orb_false_iff. intros [Hd _].
  change (String.prefix "/" (String d r))
    with (if ascii_dec "/" d then String.prefix "" r else false).
  destruct (ascii_dec "/" d) as [<- | Hne]; [discriminate | reflexivity].
Qed.

(** What [join] does with a listed name. *)
Lemma join_name (folder name : string) :
  contains "/" name = false ->
  join folder name = name
  \/ exists p, join folder name = p ++ String "/" name.
Proof.
  intros Hn. unfold join, startswith. rewrite (prefix_slash _ Hn).
  destruct (folder =? "") eqn:He; simpl.
  - apply String.eqb_eq in He. subst. now left.
  - destruct (endswith folder "/") eqn:Hend.
    + apply endswith_spec in Hend as [p ->]. right. exists p.
      now rewrite str_app_assoc.
    + right. now exists folder.
Qed.

Lemma basename_join (folder name : string) :
  contains "/" name = false -> basename (join folder name) = name.
Proof.
  intros Hn. unfold basename.
  destruct (join_name folder name Hn) as [-> | [p ->]].
  - now apply after_last_none.
  - now apply after_last_app.
Qed.

Lemma compare_app (p a b : string) :
  String.compare (p ++ a) (p ++ b) = String.compare a b.
Proof.
  induction p as [|c p IH]; simpl; [reflexivity |].
  unfold Ascii.compare. rewrite N.compare_refl. exact IH.
Qed.

Lemma leb_app (p a b : string) : String.leb (p ++ a) (p ++ b) = String.leb a b.
Proof. unfold String.leb. now rewrite compare_app. Qed.

(** The prefix [join] puts in front of a listed name depends on the folder
    alone. *)
Lemma join_prefix (folder : string) :
  exists p, forall name, contains "/" name = false -> join folder name = p ++ name.
Proof.
  destruct (folder =? "") eqn:He.
  - apply String.eqb_eq in He. subst folder.
    exists "". intros name Hn. unfold join, startswith.
    now rewrite (prefix_slash _ Hn).
  - destruct (endswith folder "/") eqn:Hend.
    + exists folder. intros name Hn. unfold join, startswith.
      now rewrite (prefix_slash _ Hn), He, Hend.
    + exists (folder ++ "/"). intros name Hn. unfold join, startswith.
      rewrite (prefix_slash _ Hn), He, Hend. simpl.
      now rewrite str_app_assoc.
Qed.

End PathFacts.

Section PlainOrder.

Import PyStr GifMaker Vocabulary Env.
Local Open Scope string_scope.

Lemma string_leb_total (x y : string) :
  String.leb x y = false -> String.leb y x = true.
Proof. destruct (String.leb_total x y) as [H | H]; congruence. Qed.

Lemma insert_map {A B : Type} (leA : A -> A -> bool) (leB : B -> B -> bool)
    (f : A -> B) (x : A) (l : list A) :
  (forall y, In y l -> leB (f x) (f y) = leA x y) ->
  insert leB (f x) (map f l) = map f (insert leA x l).
Proof.
  induction l as [|y l IH]; intros H; simpl; [reflexivity |].
  rewrite (H y) by now left.
  destruct (leA x y); simpl; [reflexivity |].
  rewrite IH; [reflexivity |]. intros z Hz. apply H. now right.
Qed.

Lemma stable_sort_map {A B : Type} (leA : A -> A -> bool)
    (leB : B -> B -> bool) (f : A -> B) (l : list A) :
  (forall x y, In x l -> In y l -> leB (f x) (f y) = leA x y) ->
  stable_sort leB (map f l) = map f (stable_sort leA l).
Proof.
  induction l as [|x l IH]; intros H; simpl; [reflexivity |].
  rewrite IH by (intros; apply H; now right).
  apply insert_map. intros y Hy. apply H; [now left | right].
  eapply Permutation_in; [apply stable_sort_permutation | exact Hy].
Qed.

(** X2: without the numeric sort, the paths of the listed names are sorted
    as the names themselves are, by code points: the result is the folder
    joined to the names in ascending lexicographic order. *)
Theorem plain_sort_is_lexicographic
    (folder : string) (names : list string) (t : list Event) :
  (forall n, In n names -> contains "/" n = false) ->
  let sorted := stable_sort String.leb names in
  sort_files false (map (join folder) names) t
  = (inr (map (join folder) sorted), t)
  /\ Permutation sorted names
  /\ Sorted (fun a b => String.leb a b = true) sorted.
Proof.
  intros Hn sorted. split; [| split].
  - unfold sort_files, ret. f_equal. f_equal.
    destruct (join_prefix folder) as [p Hp].
    apply stable_sort_map. intros x y Hx Hy.
    rewrite !Hp by auto. apply leb_app.
  - apply stable_sort_permutation.
  - apply stable_sort_sorted, string_leb_total.
Qed.

(** X3: the sort key of a listed file does not depend on the folder: the
    base name of the joined path is the name, and the key is read from the
    digits of the name alone. *)
Theorem sort_key_ignores_folder (folder name : string) :
  contains "/" name = false ->
  basename (join folder name) = name
  /\ sort_key (join folder name)
     = (let digits := filter_chars isdigit name in
        if digits =? "" then Some 0 else int_of_str digits).
Proof.
  intros Hn. split; [now apply basename_join |].
  unfold sort_key. now rewrite basename_join.
Qed.

End PlainOrder.

(* ================================================================= *)
(** ** The files the loop opens *)

Section LoopOrder.

Import PyNum Env GifMaker Vocabulary Observations.

Variable w : World.

Lemma opened_app (a b : list Event) : opened (a ++ b) = opened a ++ opened b.
Proof.
  induction a as [|e a IH]; simpl; [reflexivity |].
  destruct e; simpl; now rewrite ?IH.
Qed.

Lemma count_open_opened (t : list Event) :
  count is_open t = List.length (opened t).
Proof.
  unfold count. induction t as [|e t IH]; simpl; [reflexivity |].
  destruct e; simpl; now rewrite ?IH.
Qed.

(** The loop opens an initial segment of its list. *)
Lemma process_opened (files : list string) :
  forall (i : nat) (st : Loop),
  exists n, opened (events (process w i files st))
            = opened (events st) ++ firstn n files.
Proof.
  induction files as [|p rest IH]; intros i st; cbn [process log base_size].
  - exists 0%nat. now rewrite app_nil_r.
  - assert (Hgo : forall st', opened (events st')
                              = opened (events st) ++ [p] ->
              exists n, opened (events (process w (S i) rest st'))
                        = opened (events st) ++ firstn n (p :: rest)).
    { intros st' Hst'. destruct (IH (S i) st') as [n Hn].
      exists (S n). rewrite Hn, Hst', <- app_assoc. reflexivity. }
    destruct (open_image w p) as [|size finishes].
    + apply Hgo. simpl. now rewrite !opened_app, <- app_assoc.
    + destruct (normalize (base_size st) size finishes) as [b [d|]].
      * destruct (Nat.modulo (S i) batch_size =? 0)%nat.
        -- destruct (negb (Qle_bool (percent w (S i)) (inject_Z 80))).
           ++ cbn [images append set_base log].
              destruct (0 <? _)%nat.
              ** exists 1%nat. simpl. rewrite !opened_app. simpl.
                 now rewrite app_nil_r.
              ** apply Hgo. simpl. rewrite !opened_app. simpl.
                 now rewrite app_nil_r.
           ++ apply Hgo. simpl. rewrite !opened_app. simpl.
              now rewrite app_nil_r.
        -- apply Hgo. simpl. now rewrite !opened_app.
      * apply Hgo. simpl. now rewrite !opened_app, <- app_assoc.
Qed.

(** While no checkpoint finds the memory above 80%, the loop goes through
    its list: it opens every file, and then goes on with what follows. *)
Lemma process_app_calm (l1 : list string) :
  forall (l2 : list string) (i : nat) (st : Loop),
  (forall j, (i < j <= i + List.length l1)%nat ->
             Nat.modulo j batch_size = 0%nat ->
             Qle_bool (percent w j) (inject_Z 80) = true) ->
  process w i (l1 ++ l2) st
  = process w (i + List.length l1) l2 (process w i l1 st)
  /\ opened (events (process w i l1 st)) = opened (events st) ++ l1.
Proof.
  induction l1 as [|p rest IH]; intros l2 i st Hcalm.
  - simpl. now rewrite Nat.add_0_r, app_nil_r.
  - assert (Hgo : forall st', opened (events st')
                              = opened (events st) ++ [p] ->
              process w (S i) (rest ++ l2) st'
              = process w (i + List.length (p :: rest)) l2
                  (process w (S i) rest st')
              /\ opened (events (process w (S i) rest st'))
                 = opened (events st) ++ p :: rest).
    { intros st' Hst'.
      destruct (IH l2 (S i) st') as [Happ Hop].
      - intros j Hj. apply Hcalm. simpl. lia.
      - split.
        + rewrite Happ. f_equal. simpl. lia.
        + rewrite Hop, Hst', <- app_assoc. reflexivity. }
    cbn [app process log base_size].
    destruct (open_image w p) as [|size finishes].
    + apply Hgo. simpl. now rewrite !opened_app, <- app_assoc.
    + destruct (normalize (base_size st) size finishes) as [b [d|]].
      * destruct (Nat.modulo (S i) batch_size =? 0)%nat eqn:Hmod.
        -- rewrite (Hcalm (S i)); [| simpl; lia | now apply Nat.eqb_eq].
           cbn [negb].
           apply Hgo. simpl. rewrite !opened_app. simpl.
           now rewrite app_nil_r.
        -- apply Hgo. simpl. now rewrite !opened_app.
      * apply Hgo. simpl. now rewrite !opened_app, <- app_assoc.
Qed.

End LoopOrder.

(* ================================================================= *)
(** ** The frame buffer and the failed files *)

Section FrameOrder.

Import PyNum Env GifMaker Vocabulary Observations.

Variable w : World.

(** What [normalize] returns: a base size in every case, and a palette
    image exactly when the later steps finish and, for the image the base
    size is derived from, the derivation does not raise. *)
Lemma normalize_outcome (base : option Size) (size : Size) (finishes : bool) :
  let fitted := match fit max_dimension size with
                | Some _ => true
                | None => false
                end in
  let ok := finishes && (match base with Some _ => true | None => false end
                         || fitted) in
  exists b out,
    normalize base size finishes = (Some b, out)
    /\ (ok = true -> exists d, out = Some d)
    /\ (ok = false -> out = None).
Proof.
  unfold normalize. destruct base as [b|].
  - exists b, (if finishes then Some b else None). split; [reflexivity |].
    destruct finishes; cbn; split; try discriminate; eauto.
  - destruct (fit max_dimension size) as [b|].
    + exists b, (if finishes then Some size else None).
      split; [reflexivity |].
      destruct finishes; cbn; split; try discriminate; eauto.
    + exists size, None. split; [reflexivity |].
      rewrite andb_false_r. split; [discriminate | reflexivity].
Qed.

(** The loop opens an initial segment of its list, the whole list unless a
    checkpoint stops it, and keeps a frame for each file it opened that did
    not fail. *)
Lemma process_keeps (files : list string) :
  forall (i : nat) (st : Loop),
  exists n,
    opened (events (process w i files st))
    = opened (events st) ++ firstn n files
    /\ map source (images (process w i files st))
       = map source (images st) ++ without_failed w (based st) (firstn n files)
    /\ (n = List.length files
        \/ ((0 < n)%nat
            /\ Nat.modulo (i + n) batch_size = 0%nat
            /\ Qle_bool (percent w (i + n)) (inject_Z 80) = false)).
Proof.
  induction files as [|p rest IH]; intros i st.
  - exists 0%nat. cbn. rewrite !app_nil_r. auto.
  - assert (Hgo : forall st' kept,
              opened (events st') = opened (events st) ++ [p] ->
              map source (images st') = map source (images st) ++ kept ->
              (forall l, without_failed w (based st) (p :: l)
                         = kept ++ without_failed w (based st') l) ->
              exists n,
                opened (events (process w (S i) rest st'))
                = opened (events st) ++ firstn n (p :: rest)
                /\ map source (images (process w (S i) rest st'))
                   = map source (images st)
                     ++ without_failed w (based st) (firstn n (p :: rest))
                /\ (n = List.length (p :: rest)
                    \/ ((0 < n)%nat
                        /\ Nat.modulo (i + n) batch_size = 0%nat
                        /\ Qle_bool (percent w (i + n)) (inject_Z 80)
                           = false))).
    { intros st' kept Hop Him Hwf.
      destruct (IH (S i) st') as (n & Hn1 & Hn2 & Hn3).
      exists (S n). cbn [firstn]. rewrite Hn1, Hn2, Hop, Him, Hwf.
      rewrite <- !app_assoc. split; [reflexivity |]. split; [reflexivity |].
      replace (i + S n)%nat with (S i + n)%nat by lia.
      destruct Hn3 as [-> | (H0 & H1 & H2)]; [left; reflexivity |].
      right. split; [lia | auto]. }
    cbn [process log base_size].
    destruct (open_image w p) as [|size finishes] eqn:Hopen.
    + apply (Hgo _ []).
      * cbn. now rewrite !opened_app, <- app_assoc.
      * cbn. now rewrite app_nil_r.
      * intros l. cbn [without_failed]. now rewrite Hopen.
    + destruct (normalize_outcome (base_size st) size finishes)
        as (b & out & Hnorm & Hok & Hko).
      cbv zeta in Hok, Hko. rewrite Hnorm.
      assert (Hwf : forall l kept,
                 (finishes && (based st
                    || match fit max_dimension size with
                       | Some _ => true | None => false end) = true
                  -> kept = [p]) ->
                 (finishes && (based st
                    || match fit max_dimension size with
                       | Some _ => true | None => false end) = false
                  -> kept = []) ->
                 without_failed w (based st) (p :: l)
                 = kept ++ without_failed w true l).
      { intros l kept H1 H0. cbn [without_failed]. rewrite Hopen. cbv zeta.
        destruct (finishes && _) eqn:Hc.
        - now rewrite (H1 eq_refl).
        - now rewrite (H0 eq_refl). }
      fold (based st) in Hok, Hko.
      destruct out as [d|].
      * assert (Hc : finishes && (based st
                       || match fit max_dimension size with
                          | Some _ => true | None => false end) = true).
        { destruct (finishes && _); [reflexivity |].
          specialize (Hko eq_refl). discriminate. }
        destruct (Nat.modulo (S i) batch_size =? 0)%nat eqn:Hmod.
        -- destruct (negb (Qle_bool (percent w (S i)) (inject_Z 80)))
             eqn:Hq.
           ++ cbn [images append set_base log].
              destruct (0 <? _)%nat.
              ** exists 1%nat. cbn [firstn].
                 replace (i + 1)%nat with (S i) by lia.
                 split; [| split].
                 --- cbn. rewrite !opened_app. cbn. now rewrite app_nil_r.
                 --- cbn [images append set_base log]. rewrite map_app.
                     rewrite (Hwf [] [p]) by (auto; congruence).
                     reflexivity.
                 --- right. split; [lia |]. split.
                     +++ now apply Nat.eqb_eq.
                     +++ now apply negb_true_iff.
              ** apply (Hgo _ [p]).
                 --- cbn. rewrite !opened_app. cbn. now rewrite app_nil_r.
                 --- cbn. now rewrite map_app.
                 --- intros l. apply Hwf; [auto | congruence].
           ++ apply (Hgo _ [p]).
              ** cbn. rewrite !opened_app. cbn. now rewrite app_nil_r.
              ** cbn. now rewrite map_app.
              ** intros l. apply Hwf; [auto | congruence].
        -- apply (Hgo _ [p]).
           ++ cbn. now rewrite !opened_app.
           ++ cbn. now rewrite map_app.
           ++ intros l. apply Hwf; [auto | congruence].
      * assert (Hc : finishes && (based st
                       || match fit max_dimension size with
                          | Some _ => true | None => false end) = false).
        { destruct (finishes && _); [| reflexivity].
          destruct (Hok eq_refl) as [d Hd]. discriminate. }
        apply (Hgo _ []).
        -- cbn. now rewrite !opened_app, <- app_assoc.
        -- cbn. now rewrite app_nil_r.
        -- intros l. apply Hwf; [congruence | auto].
Qed.

(** C6: the frames handed to the encoder are the loop's list of files with
    some entries removed and the others in place; the loop, from any state
    and index, only appends to the frame buffer; a successful run ends with
    one call of the encoder on the whole buffer; and the entries removed
    are the failed ones and no others: the loop opens its list in order, up
    to the end or to the checkpoint that stops it, and the frames are the
    files it opened, without the failed ones, in the same order. *)
Theorem frames_follow_file_order
    (image_folder output_path : string) (duration loop : Z)
    (optimize : bool) (quality : Z) (sort_numerically : bool)
    (max_frames : option Z) (files : list string) :
  ordered_files w image_folder sort_numerically
    (effective_max_frames (available w) max_frames) = inr files ->
  let st := process w 0 files initial in
  let run := create_gif_from_images w image_folder output_path duration loop
               optimize quality sort_numerically max_frames in
  Subseq (map source (images st)) files
  /\ (forall i rest st0,
        exists new,
          images (process w i rest st0) = images st0 ++ new
          /\ Subseq (map source new) rest)
  /\ (fst run = true ->
      saved (snd run) = images st
      /\ snd run = [VirtualMemory; ListDir image_folder] ++ events st
                   ++ [Save output_path (images st) duration loop optimize])
  /\ exists n,
       opened (events st) = firstn n files
       /\ map source (images st) = without_failed w false (firstn n files)
       /\ (n = List.length files
           \/ ((0 < n)%nat
               /\ Nat.modulo n batch_size = 0%nat
               /\ Qle_bool (percent w n) (inject_Z 80) = false)).
Proof.
  intros Hfiles st run.
  destruct (process_initial w files) as (Hsub & _ & _ & Hloop).
  fold st in Hsub, Hloop.
  split; [exact Hsub |]. split; [| split].
  - intros i rest st0.
    destruct (process_grows w rest i st0) as [new es Hi _ _ Hs _ _].
    now exists new.
  - assert (Hrun : run = outcome w image_folder output_path duration loop
                           optimize sort_numerically max_frames)
      by apply run_outcome.
    unfold outcome in Hrun. rewrite Hfiles in Hrun. fold st in Hrun.
    rewrite Hrun.
    destruct (images st) as [|first more]; [discriminate |].
    destruct (can_save w output_path); [| discriminate].
    intros _. split; [| reflexivity].
    cbn [snd app saved]. now rewrite saved_after_loop by exact Hloop.
  - destruct (process_keeps files 0 initial) as (n & Hop & Hkeep & Hstop).
    exists n. fold st in Hop, Hkeep. cbn in Hop, Hkeep, Hstop.
    auto.
Qed.

End FrameOrder.

Section FrameOrderWitness.

Import PyNum Env GifMaker Vocabulary Observations Scenarios.
Local Open Scope string_scope.

Lemma mixed_frames_in_order :
  let files := ["pics/c1.webp"; "pics/a2.JPG"; "pics/b10.png"] in
  let run := create_gif_from_images mixed "pics" "out.gif" 500 0 true 85
               true None in
  ordered_files mixed "pics" true
    (effective_max_frames (available mixed) None) = inr files
  /\ Subseq (map source (images (process mixed 0 files initial))) files
  /\ saved (snd run) = images (process mixed 0 files initial)
  /\ exists n,
       opened (events (process mixed 0 files initial)) = firstn n files
       /\ map source (images (process mixed 0 files initial))
          = without_failed mixed false (firstn n files).
Proof.
  intros files run.
  assert (H : ordered_files mixed "pics" true
                (effective_max_frames (available mixed) None) = inr files)
    by (vm_compute; reflexivity).
  split; [exact H |].
  pose proof (frames_follow_file_order mixed "pics" "out.gif" 500 0 true 85
                true None files H) as R.
  cbv zeta in R. destruct R as (Hsub & _ & Hsave & n & Hop & Hkeep & _).
  split; [exact Hsub |]. split.
  - assert (Ht : fst run = true) by (vm_compute; reflexivity).
    exact (proj1 (Hsave Ht)).
  - exists n. split; [exact Hop | exact Hkeep].
Defined.

End FrameOrderWitness.

(* ================================================================= *)
(** ** Checkpoints and frame sizes *)

Section LoopProperties.

Import PyNum Env GifMaker Vocabulary Observations.

Variable w : World.

Lemma accepted_with_base (b : Size) (p : string) :
  accepted w None p = true -> accepted w (Some b) p = true.
Proof.
  unfold accepted, normalize.
  destruct (open_image w p) as [|size finishes]; [discriminate |].
  destruct (fit max_dimension size); [| discriminate].
  now destruct finishes.
Qed.

(** While every checkpoint finds the memory at 80% or less, the loop opens
    its whole list. *)
Lemma calm_memory_opens_every_file (files : list string) :
  (forall j, Nat.modulo j batch_size = 0%nat ->
             Qle_bool (percent w j) (inject_Z 80) = true) ->
  let st := process w 0 files initial in
  opened (events st) = files
  /\ count is_open (events st) = List.length files
  /\ List.length (images st)
     = (List.length files - count is_skipped (events st))%nat.
Proof.
  intros Hcalm st.
  destruct (process_app_calm w files [] 0%nat initial) as [_ Hop].
  { intros j _. apply Hcalm. }
  change (opened (events st) = files) in Hop.
  destruct (process_initial w files) as (_ & Htot & Hcount & _).
  fold st in Htot, Hcount.
  rewrite count_open_opened, Hop in *.
  repeat split; lia.
Qed.

Lemma process_with_percent (q : nat -> Q) (files : list string) :
  forall (i : nat) (st : Loop),
  (forall j, (i < j <= i + List.length files)%nat ->
             Nat.modulo j batch_size <> 0%nat) ->
  process (with_percent w q) i files st = process w i files st.
Proof.
  induction files as [|p rest IH]; intros i st Hno; [reflexivity |].
  cbn [process log base_size].
  change (open_image (with_percent w q) p) with (open_image w p).
  assert (Hrest : forall st', process (with_percent w q) (S i) rest st'
                              = process w (S i) rest st').
  { intros st'. apply IH. intros j Hj. apply Hno. simpl. lia. }
  destruct (open_image w p) as [|size finishes]; [apply Hrest |].
  destruct (normalize (base_size st) size finishes) as [b [d|]];
    [| apply Hrest].
  destruct (Nat.modulo (S i) batch_size =? 0)%nat eqn:Hmod;
    [| apply Hrest].
  apply Nat.eqb_eq in Hmod. exfalso. apply (Hno (S i)); [simpl; lia | exact Hmod].
Qed.

(** The state the loop is in once it has found the memory above 80% at
    the checkpoint after file [p]. *)
Lemma process_stops (i : nat) (p : string) (rest : list string) (st : Loop) :
  Nat.modulo (S i) batch_size = 0%nat ->
  accepted w (base_size st) p = true ->
  Qle_bool (percent w (S i)) (inject_Z 80) = false ->
  exists b d,
    process w i (p :: rest) st
    = log [GcCollect; VirtualMemory]
        (append {| source := p; dims := d |}
           (set_base b (log [Open p] st))).
Proof.
  intros Hmod Hacc Hq. unfold accepted in Hacc.
  cbn [process log base_size].
  destruct (open_image w p) as [|size finishes]; [discriminate |].
  destruct (normalize (base_size st) size finishes) as [b [d|]];
    [| discriminate].
  rewrite Hmod, Hq. cbn [Nat.eqb negb images append set_base log].
  rewrite length_app. simpl.
  replace (0 <? List.length (images st) + 1)%nat with true
    by (symmetry; apply Nat.ltb_lt; lia).
  now exists b, d.
Qed.

Lemma process_sized (files : list string) :
  forall (i : nat) (st : Loop), sized st -> sized (process w i files st).
Proof.
  induction files as [|p rest IH]; intros i st Hst; [exact Hst |].
  cbn [process log base_size].
  destruct (open_image w p) as [|size finishes]; [now apply IH |].
  assert (Hnext : forall b out,
            normalize (base_size st) size finishes = (b, out) ->
            sized (set_base b (log [Open p] st))
            /\ forall d, out = Some d ->
                 sized (append {| source := p; dims := d |}
                          (set_base b (log [Open p] st)))).
  { unfold normalize, sized in *. cbn [set_base log append base_size images].
    destruct (base_size st) as [b0|].
    - intros b out [= <- <-]. destruct Hst as [Htl Hhd].
      split; [now split |]. intros d Hd.
      destruct finishes; [injection Hd as <- | discriminate].
      destruct (images st) as [|f0 fs]; simpl in *.
      + split; [constructor |]. intros f [= <-]. now left.
      + split; [| exact Hhd].
        apply Forall_app. split; [exact Htl | now repeat constructor].
    - rewrite Hst. destruct (fit max_dimension size) as [b1|] eqn:Hfit.
      + intros b out [= <- <-]. split; [split; [constructor | discriminate] |].
        intros d Hd. destruct finishes; [injection Hd as <- | discriminate].
        simpl. split; [constructor |]. intros f [= <-]. now right.
      + intros b out [= <- <-].
        split; [split; [constructor | discriminate] | discriminate]. }
  destruct (normalize (base_size st) size finishes) as [b out].
  destruct (Hnext b out eq_refl) as [Hbase Hframe].
  destruct out as [d|]; [| now apply IH].
  specialize (Hframe d eq_refl).
  assert (Hlog : forall es st', sized st' -> sized (log es st'))
    by (intros es st' H; exact H).
  destruct (Nat.modulo (S i) batch_size =? 0)%nat; [| now apply IH].
  destruct (negb (Qle_bool (percent w (S i)) (inject_Z 80)));
    [| now apply IH, Hlog].
  destruct (0 <? _)%nat; [now apply Hlog | now apply IH, Hlog].
Qed.

(** Once set, [base_size] stays. *)
Lemma process_base_fixed (files : list string) :
  forall (i : nat) (st : Loop) (b : Size),
  base_size st = Some b -> base_size (process w i files st) = Some b.
Proof.
  induction files as [|p rest IH]; intros i st b Hb; [exact Hb |].
  cbn [process log base_size].
  destruct (open_image w p) as [|size finishes]; [now apply IH |].
  unfold normalize. rewrite Hb.
  destruct finishes.
  - destruct (Nat.modulo (S i) batch_size =? 0)%nat; [| now apply IH].
    destruct (negb (Qle_bool (percent w (S i)) (inject_Z 80)));
      [| now apply IH].
    destruct (0 <? _)%nat; [reflexivity | now apply IH].
  - now apply IH.
Qed.

End LoopProperties.

(* ================================================================= *)
(** ** What a run opens and saves *)

Section RunProperties.

Import PyStr PyNum Env GifMaker Vocabulary Observations.

Variable w : World.

Lemma truncate_firstn (m : Z) (l : list string) :
  truncate m l
  = firstn (if 0 <=? m then Z.to_nat m
            else (List.length l - Z.to_nat (- m))%nat) l.
Proof.
  unfold truncate, slice_to.
  destruct (m <? Z.of_nat (List.length l)) eqn:Hlt.
  - destruct (0 <=? m) eqn:Hm; [reflexivity |].
    f_equal. apply Z.leb_gt in Hm. lia.
  - apply Z.ltb_ge in Hlt.
    replace (0 <=? m) with true by (symmetry; apply Z.leb_le; lia).
    symmetry. apply firstn_all2. lia.
Qed.

Lemma ordered_files_spec (image_folder : string) (sort_numerically : bool)
    (max_frames : Z) (files : list string) :
  ordered_files w image_folder sort_numerically max_frames = inr files ->
  exists names sorted,
    listdir w image_folder = Some names
    /\ filter is_supported names <> []
    /\ Permutation sorted
         (map (join image_folder) (filter is_supported names))
    /\ files = truncate max_frames sorted.
Proof.
  unfold ordered_files, file_list, discover, sort_files, bind, emit, raise,
    ret.
  destruct (listdir w image_folder) as [names|]; [| discriminate].
  destruct (map _ (filter is_supported names)) as [|f fs] eqn:Hmap;
    [discriminate |].
  assert (Hne : filter is_supported names <> [])
    by (intros H; rewrite H in Hmap; discriminate).
  destruct sort_numerically.
  - destruct (sort_keys (f :: fs)) as [ks|] eqn:Hks; [| discriminate].
    cbn [fst]. intros [= <-].
    exists names, (stable_sort by_key (f :: fs)).
    rewrite (sort_keys_some _ _ Hks), sort_tagged, ?Hmap.
    split; [reflexivity |]. split; [exact Hne |].
    split; [apply stable_sort_permutation | reflexivity].
  - cbn [fst]. intros [= <-].
    exists names, (stable_sort String.leb (f :: fs)). rewrite ?Hmap.
    split; [reflexivity |]. split; [exact Hne |].
    split; [apply stable_sort_permutation | reflexivity].
Qed.


Lemma Subseq_length {A : Type} (l1 l2 : list A) :
  Subseq l1 l2 -> (List.length l1 <= List.length l2)%nat.
Proof. induction 1; simpl; lia. Qed.

Lemma truncate_length (m : Z) (l : list string) :
  0 <= m -> (List.length (truncate m l) <= Z.to_nat m)%nat.
Proof.
  intros Hm. rewrite truncate_firstn.
  replace (0 <=? m) with true by (symmetry; now apply Z.leb_le).
  rewrite length_firstn. lia.
Qed.

Lemma trace_observed (image_folder : string) (es : list Event) (x : Event) :
  forallb loop_event es = true ->
  is_open x = false ->
  let t := [VirtualMemory; ListDir image_folder] ++ es ++ [x] in
  opened t = opened es
  /\ saved t = saved [x]
  /\ reported t = reported [x]
  /\ count is_save t = count is_save [x].
Proof.
  intros Hloop Hx t. unfold t.
  rewrite !count_app, (loop_events_no_save _ Hloop), !opened_app.
  cbn [app saved reported opened].
  rewrite saved_after_loop, reported_after_loop by exact Hloop.
  repeat split; auto.
  destruct x; try discriminate; simpl; now rewrite app_nil_r.
Qed.

(** What a run opens and saves, read off [outcome]. *)
Lemma run_observed (image_folder output_path : string) (duration loop : Z)
    (optimize : bool) (quality : Z) (sort_numerically : bool)
    (max_frames : option Z) :
  let run := create_gif_from_images w image_folder output_path duration loop
               optimize quality sort_numerically max_frames in
  match ordered_files w image_folder sort_numerically
          (effective_max_frames (available w) max_frames) with
  | inl e =>
      fst run = false /\ opened (snd run) = [] /\ saved (snd run) = []
      /\ reported (snd run) = Some e /\ count is_save (snd run) = 0%nat
  | inr files =>
      let st := process w 0 files initial in
      opened (snd run) = opened (events st)
      /\ (fst run = true ->
          saved (snd run) = images st /\ images st <> []
          /\ can_save w output_path = true
          /\ reported (snd run) = None /\ count is_save (snd run) = 1%nat)
      /\ (fst run = false ->
          saved (snd run) = []
          /\ (images st = [] \/ can_save w output_path = false)
          /\ reported (snd run)
             = Some (match images st with
                     | [] => NoFramesProcessed
                     | _ :: _ => EncodeError
                     end)
          /\ count is_save (snd run) = 0%nat)
  end.
Proof.
  intros run. unfold run. rewrite run_outcome. unfold outcome.
  destruct (ordered_files _ _ _ _) as [e|files]; [now cbn |].
  destruct (process_initial w files) as (_ & _ & _ & Hloop).
  set (st := process w 0 files initial) in *. cbv zeta.
  destruct (images st) as [|first more] eqn:Himg.
  - cbn [fst snd].
    destruct (trace_observed image_folder (events st)
                (Reported NoFramesProcessed) Hloop eq_refl)
      as (Ho & Hs & Hr & Hc).
    split; [exact Ho |]. split; [discriminate |]. intros _.
    rewrite Hs, Hr, Hc. cbn. auto.
  - destruct (can_save w output_path); cbn [fst snd].
    + destruct (trace_observed image_folder (events st)
                  (Save output_path (first :: more) duration loop optimize)
                  Hloop eq_refl) as (Ho & Hs & Hr & Hc).
      split; [exact Ho |]. split; [| discriminate]. intros _.
      rewrite Hs, Hr, Hc. cbn. repeat split; auto. discriminate.
    + destruct (trace_observed image_folder (events st)
                  (Reported EncodeError) Hloop eq_refl)
        as (Ho & Hs & Hr & Hc).
      split; [exact Ho |]. split; [discriminate |]. intros _.
      rewrite Hs, Hr, Hc. cbn. auto.
Qed.

End RunProperties.

(* ================================================================= *)
(** ** Caps, success and early errors *)

Section RunTheorems.

Import PyStr PyNum Env GifMaker Vocabulary Observations.

Variable w : World.

(** The sorted list the loop's list is cut from. *)
Lemma ordered_files_sorted (image_folder : string) (sort_numerically : bool)
    (max_frames : Z) (files : list string) :
  ordered_files w image_folder sort_numerically max_frames = inr files ->
  exists names,
    listdir w image_folder = Some names
    /\ files
       = truncate max_frames
           (stable_sort (if sort_numerically then by_key else String.leb)
              (map (join image_folder) (filter is_supported names)))
    /\ (sort_numerically = true ->
        forall x, In x (map (join image_folder) (filter is_supported names))
                  -> sort_key x = Some (key_of x)).
Proof.
  unfold ordered_files, file_list, discover, sort_files, bind, emit, raise,
    ret.
  destruct (listdir w image_folder) as [names|]; [| discriminate].
  destruct (map _ (filter is_supported names)) as [|f fs] eqn:Hmap;
    [discriminate |].
  destruct sort_numerically.
  - destruct (sort_keys (f :: fs)) as [ks|] eqn:Hks; [| discriminate].
    cbn [fst]. intros [= <-]. exists names.
    rewrite (sort_keys_some _ _ Hks), sort_tagged, ?Hmap.
    split; [reflexivity |]. split; [reflexivity |].
    intros _ x Hx. unfold key_of.
    destruct (sort_key x) as [k|] eqn:Hk; [reflexivity |].
    assert (Hnone : sort_keys (f :: fs) = None)
      by (apply sort_keys_none; now exists x).
    congruence.
  - cbn [fst]. intros [= <-]. exists names. rewrite ?Hmap.
    split; [reflexivity |]. split; [reflexivity | discriminate].
Qed.

(** X5: the list the loop receives is cut from a sorted permutation of the
    supported files of the folder: its first [max_frames] elements for a
    cap that is not negative, and all but its last [-max_frames] elements
    for a negative one.  Under the numeric sort the permutation is in
    ascending order of the keys, which are all computed, and files with
    equal keys are in listing order; otherwise it is in ascending
    lexicographic order. *)
Theorem loop_receives_head_of_sorted_list
    (image_folder : string) (sort_numerically : bool) (max_frames : Z)
    (files : list string) :
  ordered_files w image_folder sort_numerically max_frames = inr files ->
  exists names sorted,
    listdir w image_folder = Some names
    /\ Permutation sorted
         (map (join image_folder) (filter is_supported names))
    /\ (0 <= max_frames -> files = firstn (Z.to_nat max_frames) sorted)
    /\ (max_frames < 0 ->
        files = firstn (List.length sorted - Z.to_nat (- max_frames)) sorted)
    /\ (sort_numerically = true ->
        StronglySorted (fun a b => key_of a <= key_of b) sorted
        /\ Forall (fun x => sort_key x = Some (key_of x)) sorted
        /\ forall k,
             filter (fun x => key_of x =? k) sorted
             = filter (fun x => key_of x =? k)
                 (map (join image_folder) (filter is_supported names)))
    /\ (sort_numerically = false ->
        Sorted (fun a b => String.leb a b = true) sorted).
Proof.
  intros H. destruct (ordered_files_sorted _ _ _ _ H)
    as (names & Hdir & Hcut & Hkeys).
  exists names,
    (stable_sort (if sort_numerically then by_key else String.leb)
       (map (join image_folder) (filter is_supported names))).
  split; [exact Hdir |].
  split; [apply stable_sort_permutation |].
  rewrite Hcut, truncate_firstn. split; [| split; [| split]].
  - intros Hm.
    now replace (0 <=? max_frames) with true by (symmetry; apply Z.leb_le; lia).
  - intros Hm.
    now replace (0 <=? max_frames) with false
      by (symmetry; apply Z.leb_gt; lia).
  - intros ->. split; [apply by_key_sorted |]. split.
    + apply Forall_forall. intros x Hx. apply (Hkeys eq_refl).
      eapply Permutation_in; [apply stable_sort_permutation | exact Hx].
    + intros k. apply stable_sort_filter. unfold by_key.
      intros x y Hx Hxy. lia.
  - intros ->. apply stable_sort_sorted, string_leb_total.
Qed.

(** X6: with an explicit cap [m] that is not negative, a call of
    [create_gif_from_images] opens at most [m] files and hands at most [m]
    frames to the encoder. *)
Theorem explicit_cap_bounds_opened_and_saved
    (image_folder output_path : string) (duration loop : Z)
    (optimize : bool) (quality : Z) (sort_numerically : bool) (m : Z) :
  0 <= m ->
  let run := create_gif_from_images w image_folder output_path duration loop
               optimize quality sort_numerically (Some m) in
  (List.length (opened (snd run)) <= Z.to_nat m)%nat
  /\ (List.length (saved (snd run)) <= Z.to_nat m)%nat.
Proof.
  intros Hm run.
  pose proof (run_observed w image_folder output_path duration loop optimize
                quality sort_numerically (Some m)) as H.
  cbv zeta in H. fold run in H. cbn [effective_max_frames] in H.
  destruct (ordered_files w image_folder sort_numerically m)
    as [e|files] eqn:Hfiles.
  - destruct H as (_ & -> & -> & _). simpl. lia.
  - destruct (ordered_files_spec w _ _ _ _ Hfiles)
      as (names & sorted & _ & _ & _ & Htr).
    assert (Hlen : (List.length files <= Z.to_nat m)%nat)
      by (rewrite Htr; now apply truncate_length).
    destruct H as (Hop & Htrue & Hfalse). split.
    + rewrite Hop. destruct (process_opened w files 0 initial) as [n ->].
      simpl. rewrite length_firstn. lia.
    + destruct (process_initial w files) as (Hsub & _).
      apply Subseq_length in Hsub. rewrite length_map in Hsub.
      destruct (fst run).
      * destruct (Htrue eq_refl) as (-> & _). lia.
      * destruct (Hfalse eq_refl) as (-> & _). simpl. lia.
Qed.

(** X7: [create_gif_from_images] returns [True] exactly when it called the
    encoder, once and with at least one frame, and reported no error; it
    returns [False] exactly when the encoder was never called. *)
Theorem output_saved_once_iff_success
    (image_folder output_path : string) (duration loop : Z)
    (optimize : bool) (quality : Z) (sort_numerically : bool)
    (max_frames : option Z) :
  let run := create_gif_from_images w image_folder output_path duration loop
               optimize quality sort_numerically max_frames in
  (fst run = true <-> count is_save (snd run) = 1%nat)
  /\ (fst run = false <-> count is_save (snd run) = 0%nat)
  /\ (fst run = true <-> reported (snd run) = None)
  /\ (fst run = true <-> saved (snd run) <> []).
Proof.
  intros run.
  pose proof (run_observed w image_folder output_path duration loop optimize
                quality sort_numerically max_frames) as H.
  cbv zeta in H. fold run in H.
  destruct (ordered_files _ _ _ _) as [e|files].
  - destruct H as (-> & _ & -> & -> & ->).
    repeat split; try discriminate; try congruence.
  - destruct H as (_ & Htrue & Hfalse). destruct (fst run).
    + destruct (Htrue eq_refl) as (-> & Hne & _ & -> & ->).
      repeat split; auto; discriminate.
    + destruct (Hfalse eq_refl) as (-> & _ & -> & ->).
      repeat split; try discriminate; try congruence.
Qed.

(** Why [ordered_files] fails. *)
Lemma ordered_files_error (image_folder : string) (sort_numerically : bool)
    (max_frames : Z) (e : Exc) :
  ordered_files w image_folder sort_numerically max_frames = inl e <->
  (e = FolderNotFound /\ listdir w image_folder = None)
  \/ (e = NoSupportedFiles
      /\ exists names, listdir w image_folder = Some names
                       /\ filter is_supported names = [])
  \/ (e = InvalidLiteral /\ sort_numerically = true
      /\ exists names, listdir w image_folder = Some names
           /\ exists n, In n names /\ is_supported n = true
                        /\ sort_key (join image_folder n) = None).
Proof.
  unfold ordered_files, file_list, discover, sort_files, bind, emit, raise,
    ret.
  destruct (listdir w image_folder) as [names|].
  2:{ cbn. split.
      - intros [= <-]. now left.
      - intros [[-> _] | [(_ & names & [=] & _) | (_ & _ & names & [=] & _)]].
        reflexivity. }
  destruct (map _ (filter is_supported names)) as [|f fs] eqn:Hmap.
  - apply map_eq_nil in Hmap. cbn. split.
    + intros [= <-]. right. left. split; [reflexivity |]. now exists names.
    + intros [[_ [=]] | [[-> _] | (_ & _ & names' & [= <-] & n & Hin & Hn & _)]];
        [reflexivity |].
      assert (Hf : In n (filter is_supported names))
        by (apply filter_In; auto).
      rewrite Hmap in Hf. destruct Hf.
  - assert (Hne : filter is_supported names <> [])
      by (intros H; rewrite H in Hmap; discriminate).
    destruct sort_numerically.
    + destruct (sort_keys (f :: fs)) as [ks|] eqn:Hks; cbn.
      * split; [discriminate |].
        intros [[_ [=]] | [(_ & names' & [= <-] & Hnil)
                          | (_ & _ & names' & [= <-] & n & Hin & Hn & Hkey)]];
          [contradiction |].
        assert (Hnone : sort_keys (f :: fs) = None).
        { apply sort_keys_none. exists (join image_folder n).
          split; [| exact Hkey]. rewrite <- Hmap. apply in_map.
          apply filter_In. auto. }
        congruence.
      * apply sort_keys_none in Hks as (g & Hg & Hkey).
        rewrite <- Hmap in Hg. apply in_map_iff in Hg as (n & <- & Hn).
        apply filter_In in Hn as [Hin Hsup]. split.
        -- intros [= <-]. right. right. repeat split.
           exists names. split; [reflexivity |]. now exists n.
        -- intros [[_ [=]] | [(_ & names' & [= <-] & Hnil) | (-> & _)]];
             [contradiction | reflexivity].
    + cbn. split; [discriminate |].
      intros [[_ [=]] | [(_ & names' & [= <-] & Hnil) | (_ & [=] & _)]].
      contradiction.
Qed.

Lemma reported_early
    (image_folder output_path : string) (duration loop : Z)
    (optimize : bool) (quality : Z) (sort_numerically : bool)
    (max_frames : option Z) (e : Exc) :
  e <> NoFramesProcessed -> e <> EncodeError ->
  reported (snd (create_gif_from_images w image_folder output_path duration
                   loop optimize quality sort_numerically max_frames))
  = Some e
  <-> ordered_files w image_folder sort_numerically
        (effective_max_frames (available w) max_frames) = inl e.
Proof.
  intros Hn He.
  pose proof (run_observed w image_folder output_path duration loop optimize
                quality sort_numerically max_frames) as H.
  cbv zeta in H.
  destruct (ordered_files _ _ _ _) as [e'|files].
  - destruct H as (_ & _ & _ & -> & _). split; congruence.
  - destruct H as (_ & Htrue & Hfalse). split; [| discriminate].
    destruct (fst (create_gif_from_images _ _ _ _ _ _ _ _ _)).
    + destruct (Htrue eq_refl) as (_ & _ & _ & -> & _). discriminate.
    + destruct (Hfalse eq_refl) as (_ & _ & -> & _).
      destruct (images _); congruence.
Qed.

(** X8: each error raised before the loop has one cause: the folder cannot
    be listed; it lists no supported file; or, under the numeric sort, the
    key of a supported file cannot be computed.  Whenever a file has been
    opened, the run ends without error, on an empty frame buffer, or on a
    failure of the encoder. *)
Theorem early_errors_have_one_cause_each
    (image_folder output_path : string) (duration loop : Z)
    (optimize : bool) (quality : Z) (sort_numerically : bool)
    (max_frames : option Z) :
  let run := create_gif_from_images w image_folder output_path duration loop
               optimize quality sort_numerically max_frames in
  (reported (snd run) = Some FolderNotFound
   <-> listdir w image_folder = None)
  /\ (reported (snd run) = Some NoSupportedFiles
      <-> exists names, listdir w image_folder = Some names
                        /\ filter is_supported names = [])
  /\ (reported (snd run) = Some InvalidLiteral
      <-> sort_numerically = true
          /\ exists names, listdir w image_folder = Some names
               /\ exists n, In n names /\ is_supported n = true
                            /\ sort_key (join image_folder n) = None)
  /\ (opened (snd run) = []
      \/ reported (snd run) = None
      \/ reported (snd run) = Some NoFramesProcessed
      \/ reported (snd run) = Some EncodeError).
Proof.
  intros run. unfold run.
  rewrite !reported_early by discriminate.
  rewrite !ordered_files_error.
  split; [| split; [| split]].
  - split.
    + intros [[_ H] | [[He _] | [He _]]]; [exact H | discriminate He ..].
    + intros H. now left.
  - split.
    + intros [[He _] | [[_ H] | [He _]]]; [discriminate He | exact H |
                                            discriminate He].
    + intros H. right. now left.
  - split.
    + intros [[He _] | [[He _] | (_ & Hs & H)]];
        [discriminate He | discriminate He | now split].
    + intros [Hs H]. right. right. auto.
  - pose proof (run_observed w image_folder output_path duration loop
                  optimize quality sort_numerically max_frames) as H.
    cbv zeta in H.
    destruct (ordered_files _ _ _ _) as [e|files].
    + destruct H as (_ & Hop & _). now left.
    + destruct H as (_ & Htrue & Hfalse).
      destruct (fst (create_gif_from_images _ _ _ _ _ _ _ _ _)).
      * destruct (Htrue eq_refl) as (_ & _ & _ & -> & _). auto.
      * destruct (Hfalse eq_refl) as (_ & _ & -> & _).
        destruct (images _); auto.
Qed.

End RunTheorems.

(* ================================================================= *)
(** ** Batches *)

Section BatchTheorems.

Import PyStr PyNum Env GifMaker Vocabulary Observations.

Variable w : World.

(** X9: when every checkpoint finds the memory at 80% or less, the run
    opens every file of its list, once and in order, and keeps one frame
    for each file it did not skip. *)
Theorem without_memory_pressure_every_file_is_opened
    (image_folder output_path : string) (duration loop : Z)
    (optimize : bool) (quality : Z) (sort_numerically : bool)
    (max_frames : option Z) (files : list string) :
  ordered_files w image_folder sort_numerically
    (effective_max_frames (available w) max_frames) = inr files ->
  (forall j, Nat.modulo j batch_size = 0%nat ->
             Qle_bool (percent w j) (inject_Z 80) = true) ->
  let run := create_gif_from_images w image_folder output_path duration loop
               optimize quality sort_numerically max_frames in
  let st := process w 0 files initial in
  opened (snd run) = files
  /\ List.length (images st)
     = (List.length files - count is_skipped (events st))%nat.
Proof.
  intros Hfiles Hcalm run st.
  pose proof (run_observed w image_folder output_path duration loop optimize
                quality sort_numerically max_frames) as H.
  cbv zeta in H. rewrite Hfiles in H. destruct H as (Hop & _).
  destruct (calm_memory_opens_every_file w files Hcalm) as (Ho & _ & Hl).
  split; [| exact Hl]. unfold run. now rewrite Hop.
Qed.

(** X10: when the hundredth file of the list is processed and the memory
    is found above 80%, the run opens no further file, succeeds, and the
    last frame it saves is that of the hundredth file. *)
Theorem memory_pressure_stops_after_hundred_files
    (image_folder output_path : string) (duration loop : Z)
    (optimize : bool) (quality : Z) (sort_numerically : bool)
    (max_frames : option Z) (l1 rest : list string) (p : string) :
  ordered_files w image_folder sort_numerically
    (effective_max_frames (available w) max_frames)
  = inr (l1 ++ p :: rest) ->
  List.length l1 = 99%nat ->
  accepted w None p = true ->
  Qle_bool (percent w 100) (inject_Z 80) = false ->
  can_save w output_path = true ->
  let run := create_gif_from_images w image_folder output_path duration loop
               optimize quality sort_numerically max_frames in
  fst run = true
  /\ opened (snd run) = l1 ++ [p]
  /\ exists front d, saved (snd run) = front ++ [ {| source := p; dims := d |} ].
Proof.
  intros Hfiles Hlen Hacc Hq Hsave run.
  pose proof (run_observed w image_folder output_path duration loop optimize
                quality sort_numerically max_frames) as H.
  cbv zeta in H. rewrite Hfiles in H. fold run in H.
  destruct H as (Hop & Htrue & Hfalse).
  destruct (process_app_calm w l1 (p :: rest) 0 initial) as [Happ Hl1].
  { intros j Hj Hmod. exfalso. unfold batch_size in Hmod.
    rewrite Nat.mod_small in Hmod by lia. lia. }
  set (st1 := process w 0 l1 initial) in *.
  assert (Hacc1 : accepted w (base_size st1) p = true).
  { destruct (base_size st1); [now apply accepted_with_base | exact Hacc]. }
  destruct (process_stops w 99 p rest st1 eq_refl Hacc1 Hq) as (b & d & Hst).
  rewrite Hlen in Happ. cbn [Nat.add] in Happ. rewrite Hst in Happ.
  assert (Himg : images (process w 0 (l1 ++ p :: rest) initial)
                 = images st1 ++ [ {| source := p; dims := d |} ])
    by now rewrite Happ.
  assert (Hev : opened (events (process w 0 (l1 ++ p :: rest) initial))
                = l1 ++ [p]).
  { rewrite Happ. simpl. rewrite !opened_app, Hl1. simpl.
    now rewrite app_nil_r. }
  assert (Hrun : fst run = true).
  { destruct (fst run); [reflexivity |].
    destruct (Hfalse eq_refl) as (_ & [Hnil | Hno] & _).
    - rewrite Himg in Hnil. now destruct (images st1).
    - congruence. }
  split; [exact Hrun |]. split; [now rewrite Hop |].
  destruct (Htrue Hrun) as (-> & _). rewrite Himg. now exists (images st1), d.
Qed.

(** X11: for a list of fewer than 100 files the result of the run, trace
    included, does not depend on the memory utilisation. *)
Theorem under_hundred_files_memory_is_not_sampled
    (image_folder output_path : string) (duration loop : Z)
    (optimize : bool) (quality : Z) (sort_numerically : bool)
    (max_frames : option Z) (files : list string) (q : nat -> Q) :
  ordered_files w image_folder sort_numerically
    (effective_max_frames (available w) max_frames) = inr files ->
  (List.length files < 100)%nat ->
  create_gif_from_images (with_percent w q) image_folder output_path duration
    loop optimize quality sort_numerically max_frames
  = create_gif_from_images w image_folder output_path duration loop optimize
      quality sort_numerically max_frames.
Proof.
  intros Hfiles Hlen. rewrite !run_outcome. unfold outcome.
  change (ordered_files (with_percent w q) image_folder sort_numerically
            (effective_max_frames (available (with_percent w q)) max_frames))
    with (ordered_files w image_folder sort_numerically
            (effective_max_frames (available w) max_frames)).
  rewrite Hfiles. cbv zeta.
  rewrite process_with_percent; [reflexivity |].
  intros j Hj. unfold batch_size. rewrite Nat.mod_small by lia. lia.
Qed.

(** X12: once set, the base size never changes; every frame after the
    first has the base size; the first frame has it too or is the image the
    base size was derived from, and has it whenever it is at most 1920 on
    both axes. *)
Theorem frames_after_the_first_share_the_base_size (files : list string) :
  let st := process w 0 files initial in
  (forall i more st0 b,
      base_size st0 = Some b ->
      base_size (process w i more st0) = Some b)
  /\ forall f fs,
       images st = f :: fs ->
       exists b,
         base_size st = Some b
         /\ Forall (fun g => dims g = b) fs
         /\ (dims f = b \/ fit max_dimension (dims f) = Some b)
         /\ (fst (dims f) <= max_dimension ->
             snd (dims f) <= max_dimension ->
             Forall (fun g => dims g = b) (f :: fs)).
Proof.
  intros st. split; [intros i more st0 b; apply process_base_fixed |].
  intros f fs Himg.
  assert (Hs : sized st) by (apply process_sized; reflexivity).
  unfold sized in Hs. rewrite Himg in Hs.
  destruct (base_size st) as [b|]; [| discriminate].
  destruct Hs as [Htl Hhd]. cbn [tl hd_error] in *.
  specialize (Hhd f eq_refl).
  exists b. split; [reflexivity |]. split; [exact Htl |].
  split; [exact Hhd |]. intros Hw Hh. constructor; [| exact Htl].
  destruct Hhd as [Hd | Hfit]; [exact Hd |].
  unfold fit in Hfit. destruct (dims f) as [fw fh]. cbn [fst snd] in *.
  replace (max_dimension <? fw) with false in Hfit
    by (symmetry; apply Z.ltb_ge; lia).
  replace (max_dimension <? fh) with false in Hfit
    by (symmetry; apply Z.ltb_ge; lia).
  cbn [orb] in Hfit. congruence.
Qed.

End BatchTheorems.

(* ================================================================= *)
(** ** Info reporter and settings *)

Section InfoFacts.

Import PyStr PyNum Env GifMaker Vocabulary Observations Info.
Local Open Scope string_scope.

Lemma extension_none (s : string) : contains "." s = false -> extension s = "".
Proof.
  induction s as [|c s IH]; simpl; [reflexivity |].
  rewrite orb_false_iff. intros [Hc Hs]. now rewrite Hs, Hc.
Qed.

Lemma contains_lstrip (s : string) :
  contains "." (lstrip_dots s) = true -> contains "." s = true.
Proof.
  induction s as [|c s IH]; simpl; [discriminate |].
  destruct (c =? ".")%char eqn:Hc; simpl; [reflexivity |].
  now rewrite Hc.
Qed.

(** [splitext] drops the extension of a name made of dots and letters
    only at its front. *)
Lemma extension_lstrip (s : string) :
  extension (lstrip_dots s)
  = if contains "." (lstrip_dots s) then extension s else "".
Proof.
  induction s as [|c s IH]; simpl; [reflexivity |].
  destruct (c =? ".")%char eqn:Hc.
  - rewrite IH. destruct (contains "." (lstrip_dots s)) eqn:Hs;
      [| reflexivity].
    now rewrite (contains_lstrip _ Hs).
  - cbn [contains extension]. rewrite Hc. cbn [orb].
    destruct (contains "." s); reflexivity.
Qed.

Lemma supported_has_format (file : string) :
  is_supported file = true -> In (lower (extension file)) supported_formats.
Proof.
  unfold is_supported. rewrite existsb_exists. intros (fmt & Hin & Hend).
  apply endswith_spec in Hend as [p Hp].
  destruct (supported_format_shape fmt Hin) as (t & -> & Ht).
  rewrite <- extension_lower, Hp, extension_app by exact Ht.
  exact Hin.
Qed.

Lemma distinct_In (x : string) (l : list string) :
  In x (distinct l) <-> In x l.
Proof.
  induction l as [|y l IH]; simpl; [tauto |].
  destruct (existsb (String.eqb y) l) eqn:Hex.
  - rewrite IH. split; [auto |]. intros [<- | H]; [| exact H].
    apply existsb_exists in Hex as (z & Hz & Heq).
    apply String.eqb_eq in Heq. now subst.
  - simpl. now rewrite IH.
Qed.

Lemma distinct_NoDup (l : list string) : NoDup (distinct l).
Proof.
  induction l as [|y l IH]; simpl; [constructor |].
  destruct (existsb (String.eqb y) l) eqn:Hex; [exact IH |].
  constructor; [| exact IH]. rewrite distinct_In. intros Hin.
  assert (existsb (String.eqb y) l = true); [| congruence].
  apply existsb_exists. exists y. split; [exact Hin | apply String.eqb_refl].
Qed.

(** X13: [get_image_info] returns [None] exactly when the folder cannot be
    listed; otherwise [count] is the number of [files], and [files] holds
    the listed names that pass the format filter, each as often as listed,
    in ascending lexicographic order. *)
Theorem image_info_lists_supported_files_sorted
    (w : World) (image_folder : string) :
  match listdir w image_folder, fst (get_image_info w image_folder) with
  | None, None => True
  | Some names, Some info =>
      count info = List.length (files info)
      /\ Permutation (files info) (filter is_supported names)
      /\ Sorted (fun a b => String.leb a b = true) (files info)
      /\ (forall n, In n (files info)
                    <-> In n names /\ is_supported n = true)
  | _, _ => False
  end.
Proof.
  unfold get_image_info.
  destruct (listdir w image_folder) as [names|]; [| exact I].
  cbn [fst count files].
  assert (Hperm := stable_sort_permutation String.leb
                     (filter is_supported names)).
  split; [now rewrite (Permutation_length Hperm) |].
  split; [exact Hperm |].
  split; [apply stable_sort_sorted, string_leb_total |].
  intros n. rewrite <- filter_In. split; apply Permutation_in;
    [exact Hperm | now symmetry].
Qed.

(** X14: the [formats] of [get_image_info] are pairwise distinct, are the
    lower-cased [splitext] extensions of the supported names, and each is a
    supported format or the empty string; the empty string is reported for
    a supported name made of dots followed by letters only, such as
    [.png]. *)
Theorem image_info_formats_are_supported_or_empty
    (w : World) (image_folder : string) (names : list string)
    (info : ImageInfo) :
  listdir w image_folder = Some names ->
  (forall n, In n names -> contains "/" n = false) ->
  fst (get_image_info w image_folder) = Some info ->
  NoDup (formats info)
  /\ (forall e, In e (formats info)
                <-> exists n, In n names /\ is_supported n = true
                              /\ lower (splitext_ext n) = e)
  /\ (forall e, In e (formats info) -> In e supported_formats \/ e = "")
  /\ (forall n, In n names -> is_supported n = true ->
                contains "." (lstrip_dots n) = false ->
                In "" (formats info)).
Proof.
  intros Hdir Hslash. unfold get_image_info. rewrite Hdir.
  cbn [fst]. intros [= <-]. cbn [formats].
  assert (Hmem : forall e,
             In e (distinct (map (fun f => lower (splitext_ext f))
                               (filter is_supported names)))
             <-> exists n, In n names /\ is_supported n = true
                           /\ lower (splitext_ext n) = e).
  { intros e. rewrite distinct_In, in_map_iff. split.
    - intros (n & <- & Hn). apply filter_In in Hn as [Hin Hsup].
      now exists n.
    - intros (n & Hin & Hsup & <-). exists n. split; [reflexivity |].
      apply filter_In. auto. }
  split; [apply distinct_NoDup |]. split; [exact Hmem |]. split.
  - intros e He. apply Hmem in He as (n & Hin & Hsup & <-).
    unfold splitext_ext, basename.
    rewrite after_last_none by (now apply Hslash).
    rewrite extension_lstrip.
    destruct (contains "." (lstrip_dots n)); [left | now right].
    now apply supported_has_format.
  - intros n Hin Hsup Hdots. apply Hmem. exists n.
    split; [exact Hin |]. split; [exact Hsup |].
    unfold splitext_ext, basename.
    rewrite after_last_none by (now apply Hslash).
    now rewrite extension_lstrip, Hdots.
Qed.

(** X15: [get_image_info] and [create_gif_from_images] agree on a folder:
    the conversion reports that the folder cannot be listed when there is
    no info, and only then; with an info, a count of zero means the
    conversion reports that no supported file was found; and the conversion
    never opens or encodes more files than the count. *)
Theorem image_info_agrees_with_conversion
    (w : World) (image_folder output_path : string) (duration loop : Z)
    (optimize : bool) (quality : Z) (sort_numerically : bool)
    (max_frames : option Z) :
  let run := create_gif_from_images w image_folder output_path duration loop
               optimize quality sort_numerically max_frames in
  match fst (get_image_info w image_folder) with
  | None => reported (snd run) = Some FolderNotFound
  | Some info =>
      reported (snd run) <> Some FolderNotFound
      /\ (count info = 0%nat <-> reported (snd run) = Some NoSupportedFiles)
      /\ (List.length (opened (snd run)) <= count info)%nat
      /\ (List.length (saved (snd run)) <= count info)%nat
  end.
Proof.
  intros run. unfold get_image_info.
  pose proof (run_observed w image_folder output_path duration loop optimize
                quality sort_numerically max_frames) as H.
  cbv zeta in H. fold run in H.
  pose proof (reported_early w image_folder output_path duration loop
                optimize quality sort_numerically max_frames) as Hearly.
  fold run in Hearly.
  pose proof (ordered_files_error w image_folder sort_numerically
                (effective_max_frames (available w) max_frames)) as Herr.
  destruct (listdir w image_folder) as [names|] eqn:Hdir; cbn [fst count].
  - split; [| split].
    + rewrite Hearly, Herr by discriminate.
      intros [[_ [=]] | [[[=] _] | [[=] _]]].
    + rewrite Hearly, Herr by discriminate. rewrite length_zero_iff_nil.
      split.
      * intros Hnil. right. left. split; [reflexivity |]. now exists names.
      * intros [[_ [=]] | [(_ & names' & [= <-] & Hnil) | ([=] & _)]].
        exact Hnil.
    + destruct (ordered_files _ _ _ _) as [e|files] eqn:Hfiles.
      * destruct H as (_ & -> & -> & _). simpl. lia.
      * destruct (ordered_files_spec w _ _ _ _ Hfiles)
          as (names' & sorted & Hd & _ & Hperm & Htr).
        assert (names' = names) by congruence. subst names'.
        assert (Hlen : (List.length files
                        <= List.length (filter is_supported names))%nat).
        { rewrite Htr, truncate_firstn, length_firstn.
          rewrite (Permutation_length Hperm), length_map. lia. }
        destruct H as (Hop & Htrue & Hfalse). split.
        -- rewrite Hop.
           destruct (process_opened w files 0 initial) as [n ->].
           simpl. rewrite length_firstn. lia.
        -- destruct (process_initial w files) as (Hsub & _).
           apply Subseq_length in Hsub. rewrite length_map in Hsub.
           destruct (fst run).
           ++ destruct (Htrue eq_refl) as (-> & _). lia.
           ++ destruct (Hfalse eq_refl) as (-> & _). simpl. lia.
  - rewrite Hearly, Herr by discriminate. now left.
Qed.

End InfoFacts.

Section ConfigFacts.

Import Config.
Local Open Scope string_scope.

Lemma store_keys (key : string) (value : Value) (d : Settings) :
  map fst (store key value d) = map fst d.
Proof.
  induction d as [|[k v] d IH]; simpl; [reflexivity |].
  destruct (k =? key); simpl; [reflexivity | now rewrite IH].
Qed.

Lemma lookup_store_same (key : string) (value : Value) (d : Settings) :
  lookup key d <> None -> lookup key (store key value d) = Some value.
Proof.
  induction d as [|[k v] d IH]; simpl; [congruence |].
  destruct (k =? key) eqn:Hk; simpl; rewrite Hk; [reflexivity | exact IH].
Qed.

Lemma lookup_store_other (key key' : string) (value : Value) (d : Settings) :
  key' <> key -> lookup key' (store key value d) = lookup key' d.
Proof.
  intros Hne. induction d as [|[k v] d IH]; simpl; [reflexivity |].
  destruct (k =? key) eqn:Hk; simpl.
  - apply String.eqb_eq in Hk. subst k.
    destruct (key =? key') eqn:Hk'; [| reflexivity].
    apply String.eqb_eq in Hk'. congruence.
  - now rewrite IH.
Qed.

Lemma lookup_In (key : string) (d : Settings) :
  lookup key d <> None <-> In key (map fst d).
Proof.
  induction d as [|[k v] d IH]; simpl; [tauto |].
  destruct (k =? key) eqn:Hk.
  - apply String.eqb_eq in Hk. split; [now left | discriminate].
  - apply String.eqb_neq in Hk. rewrite IH. tauto.
Qed.

(** X16: [update_setting] never adds or removes a key; it returns [True]
    exactly for a key the settings hold, and then [get_setting] returns the
    new value for that key; it returns [False] exactly when it leaves the
    settings as they were for a key they lack; and in every case
    [get_setting] is unchanged for every other key. *)
Theorem update_setting_changes_one_known_key
    (settings : Settings) (key : string) (value : Value) :
  let ok := fst (update_setting settings key value) in
  let settings' := snd (update_setting settings key value) in
  map fst settings' = map fst settings
  /\ (ok = true <-> In key (map fst settings))
  /\ (ok = false <-> settings' = settings /\ ~ In key (map fst settings))
  /\ (forall default, ok = true <->
        get_setting settings' key default = Some value
        /\ In key (map fst settings))
  /\ (forall key' default, key' <> key ->
        get_setting settings' key' default
        = get_setting settings key' default).
Proof.
  unfold update_setting, get_setting. cbv zeta.
  pose proof (lookup_In key settings) as Hin.
  destruct (lookup key settings) as [v|] eqn:Hl; cbn [fst snd].
  - assert (Hk : In key (map fst settings)) by (apply Hin; discriminate).
    split; [apply store_keys |]. split; [tauto |].
    split; [split; [discriminate | tauto] |]. split.
    + intros default. rewrite lookup_store_same by congruence. tauto.
    + intros key' default Hne. now rewrite lookup_store_other.
  - assert (Hk : ~ In key (map fst settings)).
    { intros H. apply Hin in H. congruence. }
    split; [reflexivity |]. split; [split; [discriminate | tauto] |].
    split; [tauto |]. split; [| reflexivity].
    intros default. split; [discriminate | tauto].
Qed.

End ConfigFacts.

(* ================================================================= *)
(** ** Generated test images *)

Section TestImageFacts.

Import PyStr PyNum Env GifMaker Vocabulary Observations TestImages Reading.
Local Open Scope string_scope.

Lemma digit_char (m : nat) :
  (m < 10)%nat ->
  let c := ascii_of_nat (48 + m) in
  isdigit c = true
  /\ decimal_value c = Some (Z.of_N (ord c) - 48)
  /\ Z.of_N (ord c) - 48 = Z.of_nat m
  /\ (c =? "/")%char = false.
Proof.
  intros Hm.
  do 10 (destruct m as [|m]; [vm_compute; repeat split |]). lia.
Qed.

Lemma digits_rev_spec (fuel : nat) :
  forall n, (n < fuel)%nat ->
  value (digits_rev fuel n) = Z.of_nat n
  /\ digits_rev fuel n <> []
  /\ Forall (fun c => isdigit c = true
                      /\ decimal_value c = Some (Z.of_N (ord c) - 48)
                      /\ (c =? "/")%char = false)
       (digits_rev fuel n).
Proof.
  induction fuel as [|k IH]; intros n Hn; [lia |].
  cbn [digits_rev].
  assert (Hlt : (Nat.modulo n 10 < 10)%nat) by (apply Nat.mod_upper_bound; lia).
  destruct (digit_char _ Hlt) as (Hd & Hv & Hord & Hs). cbv zeta in *.
  assert (Hn10 : Z.of_nat n
                 = Z.of_nat (Nat.modulo n 10) + 10 * Z.of_nat (Nat.div n 10)).
  { rewrite (Nat.div_mod_eq n 10) at 1. lia. }
  split; [| split; [discriminate |]].
  - cbn [value]. rewrite Hord.
    destruct (Nat.div n 10 =? 0)%nat eqn:Hq.
    + apply Nat.eqb_eq in Hq. cbn [value]. lia.
    + apply Nat.eqb_neq in Hq.
      destruct (IH (Nat.div n 10)) as (Hval & _).
      { assert (Nat.div n 10 < n)%nat by (apply Nat.div_lt; lia). lia. }
      rewrite Hval. lia.
  - constructor.
    + auto.
    + destruct (Nat.div n 10 =? 0)%nat eqn:Hq; [constructor |].
      apply Nat.eqb_neq in Hq. apply IH.
      assert (Nat.div n 10 < n)%nat by (apply Nat.div_lt; lia). lia.
Qed.

Lemma int_digits_app (acc : Z) (a b : string) :
  int_digits acc (a ++ b)
  = match int_digits acc a with
    | Some v => int_digits v b
    | None => None
    end.
Proof.
  revert acc. induction a as [|c a IH]; intros acc; simpl; [reflexivity |].
  destruct (decimal_value c); [apply IH | reflexivity].
Qed.

Lemma string_of_list_app (a b : list ascii) :
  string_of_list_ascii (a ++ b)
  = string_of_list_ascii a ++ string_of_list_ascii b.
Proof. induction a as [|c a IH]; simpl; [reflexivity | now rewrite IH]. Qed.

Lemma int_digits_rev (ds : list ascii) :
  Forall (fun c => decimal_value c = Some (Z.of_N (ord c) - 48)) ds ->
  int_digits 0 (string_of_list_ascii (rev ds)) = Some (value ds).
Proof.
  induction 1 as [|d r Hd Hr IH]; [reflexivity |].
  cbn [rev value]. rewrite string_of_list_app, int_digits_app, IH.
  cbn [string_of_list_ascii int_digits]. rewrite Hd. f_equal. lia.
Qed.

Lemma filter_chars_app (p : ascii -> bool) (a b : string) :
  filter_chars p (a ++ b) = filter_chars p a ++ filter_chars p b.
Proof.
  induction a as [|c a IH]; simpl; [reflexivity |].
  destruct (p c); simpl; now rewrite IH.
Qed.

Lemma contains_app (c : ascii) (a b : string) :
  contains c (a ++ b) = contains c a || contains c b.
Proof.
  induction a as [|d a IH]; simpl; [reflexivity |].
  now rewrite IH, orb_assoc.
Qed.

(** What [str] returns: decimal digits only, reading back as the number. *)
Lemma str_spec (n : nat) :
  int_digits 0 (str n) = Some (Z.of_nat n)
  /\ filter_chars isdigit (str n) = str n
  /\ contains "/" (str n) = false
  /\ str n <> "".
Proof.
  unfold str.
  destruct (digits_rev_spec (S n) n) as (Hval & Hne & Hall); [lia |].
  set (ds := digits_rev (S n) n) in *.
  assert (Hrev : Forall (fun c => isdigit c = true
                          /\ decimal_value c = Some (Z.of_N (ord c) - 48)
                          /\ (c =? "/")%char = false) (rev ds))
    by (apply Forall_rev; exact Hall).
  split; [| split; [| split]].
  - rewrite int_digits_rev, Hval; [reflexivity |].
    eapply Forall_impl; [| exact Hall]. now intros c (_ & H & _).
  - induction Hrev as [|c r (Hc & _) _ IH]; simpl; [reflexivity |].
    now rewrite Hc, IH.
  - induction Hrev as [|c r (_ & _ & Hc) _ IH]; simpl; [reflexivity |].
    now rewrite Hc, IH.
  - destruct ds as [|d r]; [congruence |]. cbn [rev].
    rewrite string_of_list_app. destruct (string_of_list_ascii (rev r));
      discriminate.
Qed.

Lemma zeros_spec (k : nat) (acc : Z) (s : string) :
  int_digits 0 (zeros k ++ s) = int_digits 0 s
  /\ filter_chars isdigit (zeros k) = zeros k
  /\ contains "/" (zeros k) = false.
Proof.
  induction k as [|k (H1 & H2 & H3)]; simpl; [auto |].
  rewrite H2. cbn. auto.
Qed.

Lemma pad3_spec (n : nat) :
  int_digits 0 (pad3 n) = Some (Z.of_nat n)
  /\ filter_chars isdigit (pad3 n) = pad3 n
  /\ contains "/" (pad3 n) = false
  /\ pad3 n <> "".
Proof.
  unfold pad3. cbv zeta.
  destruct (str_spec n) as (Hv & Hf & Hs & Hne).
  destruct (zeros_spec (3 - length (str n)) 0 (str n)) as (Hz & Hzf & Hzs).
  split; [now rewrite Hz |]. split; [now rewrite filter_chars_app, Hzf, Hf |].
  split; [now rewrite contains_app, Hzs, Hs |].
  destruct (zeros _); [exact Hne | discriminate].
Qed.

Lemma filename_key (folder : string) (i : nat) :
  contains "/" (filename i) = false
  /\ is_supported (filename i) = true
  /\ sort_key (join folder (filename i)) = Some (Z.of_nat (i + 1)).
Proof.
  destruct (pad3_spec (i + 1)) as (Hv & Hf & Hs & Hne).
  assert (Hslash : contains "/" (filename i) = false).
  { unfold filename. rewrite !contains_app, Hs. reflexivity. }
  split; [exact Hslash |]. split.
  - unfold is_supported. apply existsb_exists. exists ".jpg".
    split; [now left |]. apply endswith_spec.
    exists (lower ("frame_" ++ pad3 (i + 1))).
    unfold filename. rewrite <- str_app_assoc, lower_app. reflexivity.
  - unfold sort_key. rewrite basename_join by exact Hslash.
    unfold filename. rewrite !filter_chars_app, Hf. cbn [filter_chars isdigit].
    change (filter_chars isdigit "frame_") with "".
    change (filter_chars isdigit ".jpg") with "".
    cbn [String.append]. rewrite str_app_empty_r.
    destruct (pad3 (i + 1)) as [|c r] eqn:Hp; [congruence |].
    cbn [String.eqb]. unfold int_of_str. exact Hv.
Qed.


(** A list in strictly ascending key order is the only arrangement of its
    elements in ascending key order. *)
Lemma ascending_arrangement_unique {A : Type} (k : A -> Z) (l : list A) :
  StronglySorted (fun a b => k a < k b) l ->
  forall r, Permutation r l ->
            StronglySorted (fun a b => k a <= k b) r -> r = l.
Proof.
  induction 1 as [|x l Hl IH Hx]; intros r Hperm Hr.
  - now apply Permutation_nil, Permutation_sym.
  - destruct r as [|y r].
    { apply Permutation_nil in Hperm. discriminate. }
    assert (Hy : In y (x :: l))
      by (eapply Permutation_in; [exact Hperm | now left]).
    assert (Hxr : In x (y :: r))
      by (eapply Permutation_in; [symmetry; exact Hperm | now left]).
    inversion Hr as [|y' r' Hr' Hyr]; subst.
    rewrite Forall_forall in Hx, Hyr.
    assert (y = x).
    { destruct Hy as [-> | Hy]; [reflexivity |].
      destruct Hxr as [-> | Hxr]; [reflexivity |].
      specialize (Hx y Hy). specialize (Hyr x Hxr). lia. }
    subst y. f_equal. apply IH; [| exact Hr'].
    now apply Permutation_cons_inv in Hperm.
Qed.

Lemma generated_paths_ascending (folder : string) (n : nat) :
  forall s,
  StronglySorted (fun a b => key_of a < key_of b)
    (map (fun i => join folder (filename i)) (seq s n)).
Proof.
  induction n as [|n IH]; intros s; simpl; constructor; [apply IH |].
  apply Forall_forall. intros p Hp.
  apply in_map_iff in Hp as (j & <- & Hj). apply in_seq in Hj.
  unfold key_of.
  destruct (filename_key folder s) as (_ & _ & ->).
  destruct (filename_key folder j) as (_ & _ & ->). lia.
Qed.

(** X18: in whatever order the files [create_test_images] saves are
    listed, the numeric sort puts them back in the order they were
    generated in; each generated name passes the format filter and the key
    of image [i] is [i + 1]. *)
Theorem test_images_sort_into_generation_order
    (output_folder : string) (count : nat) (listing : list string)
    (t : list Event) :
  Permutation listing (map fst (create_test_images output_folder count)) ->
  sort_files true listing t
  = (inr (map fst (create_test_images output_folder count)), t)
  /\ forall i, (i < count)%nat ->
       is_supported (filename i) = true
       /\ sort_key (join output_folder (filename i))
          = Some (Z.of_nat i + 1).
Proof.
  unfold create_test_images. rewrite map_map. cbn [fst].
  intros Hperm. split.
  - rewrite sort_files_numeric.
    + f_equal. f_equal. apply (ascending_arrangement_unique key_of).
      * apply generated_paths_ascending.
      * etransitivity; [apply stable_sort_permutation | exact Hperm].
      * apply by_key_sorted.
    + intros f Hf. eapply Permutation_in in Hf; [| exact Hperm].
      apply in_map_iff in Hf as (j & <- & _).
      destruct (filename_key output_folder j) as (_ & _ & ->). discriminate.
  - intros i _. destruct (filename_key output_folder i) as (_ & Hs & ->).
    split; [exact Hs |]. f_equal. lia.
Qed.

End TestImageFacts.

(* ================================================================= *)
(** ** Sort keys, command line and settings in reach *)

Section KeyFailure.

Import PyStr PyNum Env GifMaker Vocabulary Observations Reading.
Local Open Scope string_scope.

Lemma contains_filter (p : ascii -> bool) (c : ascii) (s : string) :
  contains c (filter_chars p s) = contains c s && p c.
Proof.
  induction s as [|d s IH]; simpl; [reflexivity |].
  destruct (Ascii.eqb_spec d c) as [-> | Hne].
  - destruct (p c) eqn:Hp; simpl.
    + now rewrite Ascii.eqb_refl.
    + rewrite IH, ?Hp, !andb_false_r. reflexivity.
  - apply Ascii.eqb_neq in Hne.
    destruct (p d); simpl; rewrite ?Hne, IH; reflexivity.
Qed.

Lemma int_digits_none (s : string) :
  forall acc,
  int_digits acc s = None
  <-> exists c, contains c s = true /\ decimal_value c = None.
Proof.
  induction s as [|d s IH]; intros acc; simpl.
  - split; [discriminate | intros (c & [=] & _)].
  - destruct (decimal_value d) as [v|] eqn:Hd.
    + rewrite IH. split; intros (c & Hc & Hv); exists c.
      * split; [| exact Hv]. rewrite Hc. apply orb_true_r.
      * split; [| exact Hv].
        destruct (Ascii.eqb_spec d c) as [-> | _]; [congruence | exact Hc].
    + split; [| reflexivity]. intros _. exists d.
      now rewrite Ascii.eqb_refl.
Qed.

Lemma sort_key_none (x : string) :
  sort_key x = None
  <-> exists c, contains c (basename x) = true /\ superscript c = true.
Proof.
  unfold sort_key, superscript. cbv zeta.
  set (digits := filter_chars isdigit (basename x)).
  assert (Hmem : forall c, contains c digits = true /\ decimal_value c = None
                           <-> contains c (basename x) = true
                               /\ isdigit c && negb (between 48 57 (ord c))
                                  = true).
  { intros c. unfold digits. rewrite contains_filter, !andb_true_iff.
    unfold decimal_value. destruct (between 48 57 (ord c)); simpl;
      intuition congruence. }
  destruct digits as [|d r] eqn:Hdig.
  - cbn. split; [discriminate |].
    intros (c & Hc). apply Hmem in Hc as [[=] _].
  - cbn [String.eqb int_of_str]. rewrite int_digits_none.
    split; intros (c & Hc); exists c; now apply Hmem.
Qed.

Lemma superscript_code_points (c : ascii) :
  superscript c = true <-> In (ord c) [178; 179; 185]%N.
Proof.
  unfold superscript, isdigit, between. cbv zeta. cbn [In].
  rewrite andb_true_iff, negb_true_iff, !orb_true_iff, !andb_false_iff,
    !andb_true_iff, !N.eqb_eq, !N.leb_le, !N.leb_gt.
  lia.
Qed.

(** X4: the key function raises on every path whose base name holds one of
    the superscript digits U+00B2, U+00B3, U+00B9; and among the paths
    whose characters are all in U+0000..U+00FF, the range of [string], it
    raises on no other. *)
Theorem sort_key_fails_exactly_on_superscript_digits (x : string) :
  sort_key x = None
  <-> exists c, contains c (basename x) = true
                /\ In (ord c) [178; 179; 185]%N.
Proof.
  rewrite sort_key_none.
  split; intros (c & Hc & Hs); exists c; split; auto;
    now apply superscript_code_points.
Qed.

End KeyFailure.

Section CliFacts.

Import Env GifMaker Vocabulary Observations Cli.

(** X19: [main] exits with status 0 exactly when its trace ends with a
    call of the encoder on [args.output] with [args.duration], [args.loop]
    and the negation of [args.no_optimize]; it exits with status 1 exactly
    when an error was reported. *)
Theorem cli_options_reach_the_encoder (w : World) (args : Args) :
  (fst (main w args) = 0
   <-> exists t frames,
         snd (main w args)
         = t ++ [Save (output args) frames (duration args) (loop args)
                   (negb (no_optimize args))])
  /\ (fst (main w args) = 1 <-> reported (snd (main w args)) <> None).
Proof.
  unfold main. rewrite run_outcome. unfold outcome.
  assert (Hlast : forall es x y t,
             [VirtualMemory; ListDir (folder args)] ++ es ++ [x]
             = t ++ [y] -> x = y).
  { intros es x y t H. rewrite !app_assoc in H.
    apply app_inj_tail in H. tauto. }
  assert (Hfail : forall es e,
             forallb loop_event es = true ->
             let t := [VirtualMemory; ListDir (folder args)] ++ es
                      ++ [Reported e] in
             (1 = 0 <-> exists t' frames,
                 t = t' ++ [Save (output args) frames (duration args)
                              (loop args) (negb (no_optimize args))])
             /\ (1 = 1 <-> reported t <> None)).
  { intros es e Hes t. split; split.
    - discriminate.
    - intros (t' & frames & H). apply Hlast in H. discriminate.
    - intros _. unfold t. cbn [app reported].
      rewrite reported_after_loop by exact Hes. discriminate.
    - reflexivity. }
  destruct (ordered_files _ _ _ _) as [e|files].
  - apply (Hfail [] e eq_refl).
  - destruct (process_initial w files) as (_ & _ & _ & Hloop).
    set (st := process w 0 files initial) in *. cbv zeta.
    destruct (images st) as [|first more];
      [apply (Hfail (events st) NoFramesProcessed Hloop) |].
    destruct (can_save w (output args));
      [| apply (Hfail (events st) EncodeError Hloop)].
    cbn [fst snd]. split; split.
    + intros _.
      exists ([VirtualMemory; ListDir (folder args)] ++ events st),
        (first :: more). now rewrite <- app_assoc.
    + reflexivity.
    + discriminate.
    + intros H. exfalso. apply H. cbn [app reported].
      now rewrite reported_after_loop by exact Hloop.
Qed.

End CliFacts.

Section ReachFacts.

Import Config Reading.
Local Open Scope string_scope.

Lemma reachable_keys (settings : Settings) :
  reachable settings -> map fst settings = map fst DEFAULT_SETTINGS.
Proof.
  induction 1 as [|settings key value _ IH]; [reflexivity |].
  unfold update_setting. destruct (lookup key settings); cbn [snd];
    [now rewrite store_keys | exact IH].
Qed.

(** X17: whatever updates were made, a key of [ADVANCED_SETTINGS] can be
    neither read nor changed: [get_setting] returns the default given and
    [update_setting] returns [False] and changes nothing. *)
Theorem advanced_settings_are_out_of_reach
    (settings : Settings) (key : string) (value : Value)
    (default : option Value) :
  reachable settings ->
  In key (map fst ADVANCED_SETTINGS) ->
  get_setting settings key default = default
  /\ update_setting settings key value = (false, settings).
Proof.
  intros Hr Hkey.
  assert (Hno : lookup key settings = None).
  { destruct (lookup key settings) eqn:Hl; [| reflexivity].
    exfalso. assert (Hin : In key (map fst settings))
      by (apply lookup_In; congruence).
    rewrite (reachable_keys _ Hr) in Hin.
    cbn in Hkey, Hin.
    repeat (destruct Hkey as [<- | Hkey];
            [repeat (destruct Hin as [Hin | Hin]; [discriminate Hin |]);
             exact Hin |]).
    exact Hkey. }
  unfold get_setting, update_setting. now rewrite Hno.
Qed.

End ReachFacts.

(* ================================================================= *)
(** ** The properties on concrete inputs *)

Section MoreWitnesses.

Import PyStr PyNum Env GifMaker Vocabulary Observations Cli Scenarios.
Import Info Config TestImages Reading Samples.
Local Open Scope string_scope.

Lemma tied_paths_sorted_stably :
  (forall f, In f tied_paths -> sort_key f <> None)
  /\ exists sorted,
       sort_files true tied_paths [] = (inr sorted, [])
       /\ filter (fun f => (key_of f =? 2)%Z) sorted
          = filter (fun f => (key_of f =? 2)%Z) tied_paths.
Proof.
  assert (H : forall f, In f tied_paths -> sort_key f <> None).
  { intros f [<- | [<- | [<- | [<- | []]]]]; vm_compute; discriminate. }
  split; [exact H |].
  destruct (numeric_sort_is_stable_ascending tied_paths [] H)
    as (sorted & Hs & _ & _ & Hk).
  exists sorted. split; [exact Hs | exact (Hk 2)].
Defined.

Lemma letters_sorted_by_code_point :
  (forall n, In n ["b.png"; "B.png"; "a.png"] -> contains "/" n = false)
  /\ sort_files false (map (join "pics") ["b.png"; "B.png"; "a.png"]) []
     = (inr (map (join "pics")
               (stable_sort String.leb ["b.png"; "B.png"; "a.png"])), []).
Proof.
  assert (H : forall n, In n ["b.png"; "B.png"; "a.png"] ->
                        contains "/" n = false).
  { intros n [<- | [<- | [<- | []]]]; reflexivity. }
  split; [exact H |].
  exact (proj1 (plain_sort_is_lexicographic "pics" _ [] H)).
Defined.

Lemma folder_digits_do_not_count :
  contains "/" "img_2_final_10.png" = false
  /\ basename (join "pics2024" "img_2_final_10.png") = "img_2_final_10.png".
Proof.
  assert (H : contains "/" "img_2_final_10.png" = false) by reflexivity.
  split; [exact H |].
  exact (proj1 (sort_key_ignores_folder "pics2024" _ H)).
Defined.

Lemma mixed_capped_at_two :
  ordered_files mixed "pics" true 2 = inr ["pics/c1.webp"; "pics/a2.JPG"]
  /\ exists names sorted,
       listdir mixed "pics" = Some names
       /\ Permutation sorted (map (join "pics") (filter is_supported names)).
Proof.
  assert (H : ordered_files mixed "pics" true 2
              = inr ["pics/c1.webp"; "pics/a2.JPG"])
    by (vm_compute; reflexivity).
  split; [exact H |].
  destruct (loop_receives_head_of_sorted_list mixed "pics" true 2 _ H)
    as (names & sorted & Hd & Hp & _).
  exists names, sorted. split; [exact Hd | exact Hp].
Defined.

Lemma cap_of_two_bounds_mixed :
  0 <= 2
  /\ (List.length (saved (snd (create_gif_from_images mixed "pics" "out.gif"
                                 500%Z 0%Z true 85%Z true (Some 2%Z)))) <= 2)%nat.
Proof.
  assert (H : 0 <= 2) by (intros C; discriminate C).
  split; [exact H |].
  exact (proj2 (explicit_cap_bounds_opened_and_saved mixed "pics" "out.gif"
                  500 0 true 85 true 2 H)).
Defined.

Lemma mixed_opens_all_three :
  ordered_files mixed "pics" true
    (effective_max_frames (available mixed) None)
  = inr ["pics/c1.webp"; "pics/a2.JPG"; "pics/b10.png"]
  /\ opened (snd (create_gif_from_images mixed "pics" "out.gif" 500 0 true
                    85 true None))
     = ["pics/c1.webp"; "pics/a2.JPG"; "pics/b10.png"].
Proof.
  assert (H : ordered_files mixed "pics" true
                (effective_max_frames (available mixed) None)
              = inr ["pics/c1.webp"; "pics/a2.JPG"; "pics/b10.png"])
    by (vm_compute; reflexivity).
  split; [exact H |].
  assert (Hcalm : forall j, Nat.modulo j batch_size = 0%nat ->
                    Qle_bool (percent mixed j) (inject_Z 80) = true)
    by (intros j _; reflexivity).
  exact (proj1 (without_memory_pressure_every_file_is_opened mixed "pics"
                  "out.gif" 500 0 true 85 true None _ H Hcalm)).
Defined.

Lemma busy_memory_stops_at_hundred :
  ordered_files busy_memory "pics" true
    (effective_max_frames (available busy_memory) None)
  = inr (first_99 ++ "pics/f100.png" :: ["pics/f101.png"])%list
  /\ fst (create_gif_from_images busy_memory "pics" "out.gif" 500 0 true 85
            true None) = true
  /\ opened (snd (create_gif_from_images busy_memory "pics" "out.gif" 500 0
                    true 85 true None))
     = (first_99 ++ ["pics/f100.png"])%list.
Proof.
  assert (H : ordered_files busy_memory "pics" true
                (effective_max_frames (available busy_memory) None)
              = inr (first_99 ++ "pics/f100.png" :: ["pics/f101.png"])%list)
    by (vm_compute; reflexivity).
  split; [exact H |].
  assert (Hlen : List.length first_99 = 99%nat) by reflexivity.
  assert (Hacc : accepted busy_memory None "pics/f100.png" = true)
    by (vm_compute; reflexivity).
  assert (Hq : Qle_bool (percent busy_memory 100) (inject_Z 80) = false)
    by reflexivity.
  assert (Hs : can_save busy_memory "out.gif" = true) by reflexivity.
  pose proof (memory_pressure_stops_after_hundred_files busy_memory "pics"
                "out.gif" 500 0 true 85 true None first_99
                ["pics/f101.png"] "pics/f100.png" H Hlen Hacc Hq Hs) as R.
  cbv zeta in R. destruct R as (R1 & R2 & _).
  split; [exact R1 | exact R2].
Defined.

Lemma mixed_ignores_memory_probe :
  ordered_files mixed "pics" true
    (effective_max_frames (available mixed) None)
  = inr ["pics/c1.webp"; "pics/a2.JPG"; "pics/b10.png"]
  /\ create_gif_from_images (with_percent mixed (fun _ => 99 # 1)) "pics"
       "out.gif" 500 0 true 85 true None
     = create_gif_from_images mixed "pics" "out.gif" 500 0 true 85 true None.
Proof.
  assert (H : ordered_files mixed "pics" true
                (effective_max_frames (available mixed) None)
              = inr ["pics/c1.webp"; "pics/a2.JPG"; "pics/b10.png"])
    by (vm_compute; reflexivity).
  split; [exact H |].
  assert (Hlen : (List.length ["pics/c1.webp"; "pics/a2.JPG"; "pics/b10.png"]
                  < 100)%nat) by (simpl; lia).
  exact (under_hundred_files_memory_is_not_sampled mixed "pics" "out.gif" 500
           0 true 85 true None _ (fun _ => 99 # 1) H Hlen).
Defined.

Lemma large_first_tail_has_base_size :
  images (process large_first 0 ["pics/1.png"; "pics/2.png"] initial)
  = [ {| source := "pics/1.png"; dims := (3840, 2160) |};
      {| source := "pics/2.png"; dims := (1920, 1080) |} ]
  /\ exists b,
       base_size (process large_first 0 ["pics/1.png"; "pics/2.png"] initial)
       = Some b
       /\ Forall (fun g => dims g = b)
            [ {| source := "pics/2.png"; dims := (1920, 1080) |} ].
Proof.
  assert (H : images (process large_first 0 ["pics/1.png"; "pics/2.png"]
                        initial)
              = [ {| source := "pics/1.png"; dims := (3840, 2160) |};
                  {| source := "pics/2.png"; dims := (1920, 1080) |} ])
    by (vm_compute; reflexivity).
  split; [exact H |].
  pose proof (frames_after_the_first_share_the_base_size large_first
                ["pics/1.png"; "pics/2.png"]) as R.
  cbv zeta in R. destruct R as (_ & R).
  destruct (R _ _ H) as (b & Hb & Htl & _).
  exists b. split; [exact Hb | exact Htl].
Defined.

Lemma mixed_formats_are_supported :
  listdir mixed "pics" = Some ["b10.png"; "a2.JPG"; "notes.txt"; "c1.webp"]
  /\ fst (get_image_info mixed "pics") = Some mixed_info
  /\ forall e, In e (formats mixed_info) ->
               In e supported_formats \/ e = "".
Proof.
  assert (Hd : listdir mixed "pics"
               = Some ["b10.png"; "a2.JPG"; "notes.txt"; "c1.webp"])
    by reflexivity.
  assert (Hn : forall n, In n ["b10.png"; "a2.JPG"; "notes.txt"; "c1.webp"]
                         -> contains "/" n = false).
  { intros n [<- | [<- | [<- | [<- | []]]]]; reflexivity. }
  assert (Hi : fst (get_image_info mixed "pics") = Some mixed_info)
    by (vm_compute; reflexivity).
  split; [exact Hd |]. split; [exact Hi |].
  destruct (image_info_formats_are_supported_or_empty mixed "pics" _ _
              Hd Hn Hi) as (_ & _ & R & _).
  exact R.
Defined.

Lemma max_frames_update_keeps_quality :
  "image_quality" <> "max_frames"
  /\ get_setting (snd (update_setting DEFAULT_SETTINGS "max_frames" (VInt 3)))
       "image_quality" None
     = get_setting DEFAULT_SETTINGS "image_quality" None.
Proof.
  assert (H : "image_quality" <> "max_frames") by discriminate.
  split; [exact H |].
  pose proof (update_setting_changes_one_known_key DEFAULT_SETTINGS
                "max_frames" (VInt 3)) as R.
  cbv zeta in R. destruct R as (_ & _ & _ & _ & R).
  exact (R "image_quality" None H).
Defined.

Lemma batch_size_is_out_of_reach :
  reachable DEFAULT_SETTINGS
  /\ In "batch_size" (map fst ADVANCED_SETTINGS)
  /\ update_setting DEFAULT_SETTINGS "batch_size" (VInt 10)
     = (false, DEFAULT_SETTINGS).
Proof.
  assert (Hr : reachable DEFAULT_SETTINGS) by constructor.
  assert (Hk : In "batch_size" (map fst ADVANCED_SETTINGS))
    by (right; left; reflexivity).
  split; [exact Hr |]. split; [exact Hk |].
  exact (proj2 (advanced_settings_are_out_of_reach DEFAULT_SETTINGS
                  "batch_size" (VInt 10) None Hr Hk)).
Defined.

Lemma three_test_images_listed_backwards :
  Permutation (rev (map fst (create_test_images "test_images" 3)))
    (map fst (create_test_images "test_images" 3))
  /\ sort_files true (rev (map fst (create_test_images "test_images" 3))) []
     = (inr (map fst (create_test_images "test_images" 3)), []).
Proof.
  assert (H : Permutation (rev (map fst (create_test_images "test_images" 3)))
                (map fst (create_test_images "test_images" 3)))
    by (symmetry; apply Permutation_rev).
  split; [exact H |].
  exact (proj1 (test_images_sort_into_generation_order "test_images" 3 _ []
                  H)).
Defined.

End MoreWitnesses.
